(** * Google Drive MCP server (src/index.ts): model and verified properties

    The server is a protocol adapter: four request handlers translate
    resource and tool requests into calls of the Drive v3 client.  The
    handlers are embedded here as programs of a small monad that threads the
    remote service, propagates errors and records every client call that is
    issued, so that statements such as "no remote call is made" or "the body
    written is ..." are statements about the recorded trace.

    Conventions of the embedding.
    - A JavaScript string is a [string]; its characters stand for the code
      units of the text.  Byte buffers are [string]s as well.
    - A property read on the argument bag that is absent is JavaScript's
      [undefined]: [None] at type [option string].
    - Every [await drive.files.X(...)] is one [call]; a rejected promise is
      the error [RemoteFailure].
    - What the source takes from its runtime and libraries (Buffer codecs,
      the [mime-types] table, the regular-expression engine on patterns with
      syntax characters) is a field of [Platform]. *)

From stdpp Require Import gmap strings list pretty.
From Stdlib Require Import String Ascii Lia.

Local Open Scope string_scope.

(* stdpp freezes [append] under [simpl]; the proofs below compute with it. *)
#[local] Arguments String.append !s1 s2 : simpl nomatch.

(** ** JavaScript strings *)

Module JsString.

Definition LF : string := String "010"%char "".
Definition backslash : string := String "092"%char "".
Definition quote : string := String "039"%char "".

(** [String(v)] for a value that is a string or [undefined]. *)
Definition ToString (v : option string) : string :=
  match v with
  | Some s => s
  | None => "undefined"
  end.

(** [s.startsWith(p)] *)
Definition startsWith (s p : string) : bool := String.prefix p s.

Fixpoint drop (n : nat) (s : string) : string :=
  match n, s with
  | O, _ => s
  | S n', String _ s' => drop n' s'
  | S _, EmptyString => EmptyString
  end.

(** [s.includes(t)] *)
Fixpoint includes (s t : string) : bool :=
  if String.prefix t s then true
  else match s with
       | EmptyString => false
       | String _ s' => includes s' t
       end.

(** [s.replace(pat, repl)] with a string pattern: only the first
    occurrence is replaced ([repl] holds no [$] here). *)
Fixpoint replaceFirst (pat repl s : string) : string :=
  if String.prefix pat s then repl +:+ drop (String.length pat) s
  else match s with
       | EmptyString => EmptyString
       | String c s' => String c (replaceFirst pat repl s')
       end.

(** [s.replace(/lit/g, repl)] for a pattern that matches exactly the text
    [lit]: one scan from the left; after a match the scan resumes behind
    it ([skip] counts the characters of the match still to be passed); an
    empty match advances by one character. *)
Fixpoint replaceAll_go (lit repl : string) (skip : nat) (s : string) : string :=
  match s with
  | EmptyString =>
      match skip, lit with
      | O, EmptyString => repl
      | _, _ => EmptyString
      end
  | String c s' =>
      match skip with
      | S k => replaceAll_go lit repl k s'
      | O =>
          if String.prefix lit s then
            match lit with
            | EmptyString => repl +:+ String c (replaceAll_go lit repl 0 s')
            | String _ lit' => repl +:+ replaceAll_go lit repl (String.length lit') s'
            end
          else String c (replaceAll_go lit repl 0 s')
      end
  end.

Definition replaceAll (lit repl s : string) : string :=
  replaceAll_go lit repl 0 s.

(** Number of matches found by the scan of [replaceAll]. *)
Fixpoint countMatches_go (lit : string) (skip : nat) (s : string) : nat :=
  match s with
  | EmptyString =>
      match skip, lit with
      | O, EmptyString => 1
      | _, _ => 0
      end
  | String c s' =>
      match skip with
      | S k => countMatches_go lit k s'
      | O =>
          if String.prefix lit s then
            match lit with
            | EmptyString => S (countMatches_go lit 0 s')
            | String _ lit' => S (countMatches_go lit (String.length lit') s')
            end
          else countMatches_go lit 0 s'
      end
  end.

Definition countMatches (lit s : string) : nat := countMatches_go lit 0 s.

(** Number of positions of [s] at which [t] occurs (overlaps counted). *)
Fixpoint occurrences (t s : string) : nat :=
  (if String.prefix t s then 1 else 0) +
  match s with
  | EmptyString => 0
  | String _ s' => occurrences t s'
  end.

(** [xs.join(sep)] *)
Fixpoint join (sep : string) (xs : list string) : string :=
  match xs with
  | [] => ""
  | [x] => x
  | x :: xs' => x +:+ sep +:+ join sep xs'
  end.

Fixpoint flatMap (f : ascii -> string) (s : string) : string :=
  match s with
  | EmptyString => EmptyString
  | String c s' => f c +:+ flatMap f s'
  end.

Fixpoint forallb (p : ascii -> bool) (s : string) : bool :=
  match s with
  | EmptyString => true
  | String c s' => p c && forallb p s'
  end.

End JsString.
Import JsString.

(** ** The Drive v3 client, as far as the server uses it *)

(** A file of a listing.  The listings ask for [id] and [name] (and
    [mimeType]) in their [fields] mask; the provider fills them in. *)
Record File := {
  file_id : string;
  file_name : string;
  file_mimeType : string;
}.

(** [res.data] of [drive.files.list]. *)
Record FileList := {
  files : option (list File);
  nextPageToken : option string;
}.

(** One constructor per shape of client call made by the source. *)
Inductive Call :=
| files_list (q : option string) (pageSize : nat) (fields : string)
             (pageToken : option string)
| files_get_json (fileId : string)
| files_get_arraybuffer (fileId : string) (alt : option string)
| files_export_text (fileId mimeType : string)
| files_create (name : option string) (mimeType media_mimeType body : string)
| files_update (fileId media_mimeType body : string)
| files_delete (fileId : string).

(** What a call resolves to: [res.data], or the field of it that is read. *)
Definition resp (c : Call) : Type :=
  match c with
  | files_list _ _ _ _ => FileList
  | files_get_json _ => option string          (* data.mimeType *)
  | files_get_arraybuffer _ _ => string        (* the bytes *)
  | files_export_text _ _ => string            (* the exported text *)
  | files_create _ _ _ _ => string             (* data.id *)
  | files_update _ _ _ => unit
  | files_delete _ => unit
  end.

(** The remote service: any state, any answers; a call may be rejected. *)
Record Remote := {
  world : Type;
  serve : forall c : Call, world -> (string + resp c) * world;
}.

(** ** Runtime and libraries *)

Record Platform := {
  (** [Buffer.from(text)]: the UTF-8 bytes of a text *)
  Buffer_from : string -> string;
  (** [buf.toString("utf-8")] *)
  toString_utf8 : string -> string;
  (** [buf.toString("base64")] *)
  toString_base64 : string -> string;
  (** [lookup] of the [mime-types] package; [None] is its [false] *)
  mime_lookup : option string -> option string;
  (** [s.replace(new RegExp(p, "g"), "")] for a pattern [p] that holds a
      syntax character; [None] when the pattern does not compile *)
  regexp_remove : string -> string -> option string;
}.

(** ** Errors *)

(** The throw sites of the source, and the runtime's own errors. *)
Inductive Error :=
| NotFound (nameOrId : string)
| Ambiguous (candidates : list File)
| TextNotFound (targetText : string)
| ToolNotFound
| TypeError
| SyntaxError
| RemoteFailure (reason : string).

Definition candidateLine (file : File) : string :=
  "• " +:+ file_name file +:+ " (ID: " +:+ file_id file +:+ ")".

(** The message text of the [Error] objects built by the source; for an
    error of the runtime its name, for a rejected call its reason. *)
Definition message (e : Error) : string :=
  match e with
  | NotFound nameOrId =>
      "파일 이름 '" +:+ nameOrId +:+ "'에 해당하는 파일을 찾을 수 없습니다."
  | Ambiguous candidates =>
      "여러 개의 파일이 검색되었습니다. 정확한 파일명을 입력하거나 ID를 직접 지정해 주세요."
      +:+ LF +:+ LF +:+ join LF (map candidateLine candidates)
  | TextNotFound targetText =>
      "파일에 '" +:+ targetText +:+ "' 내용이 존재하지 않습니다."
  | ToolNotFound => "Tool not found"
  | TypeError => "TypeError"
  | SyntaxError => "SyntaxError"
  | RemoteFailure reason => reason
  end.

(** ** Pure parts of the handlers *)

(** [\w] *)
Definition isWordChar (c : ascii) : bool :=
  let n := N_of_ascii c in
  ((48 <=? n) && (n <=? 57) || (65 <=? n) && (n <=? 90)
   || (97 <=? n) && (n <=? 122) || (n =? 95))%N.

(** [/^[\w-]{20,}$/.test(s)] *)
Definition isFileIdShape (s : string) : bool :=
  JsString.forallb (fun c => isWordChar c || (N_of_ascii c =? 45)%N) s
  && (20 <=? String.length s)%nat.

(** [`name = '${nameOrId}'`] *)
Definition nameQuery (nameOrId : string) : string :=
  "name = " +:+ quote +:+ nameOrId +:+ quote.

(** [`gdrive:///${file.id}`] *)
Definition resourceUri (fileId : string) : string := "gdrive:///" +:+ fileId.

(** [uri.replace("gdrive:///", "")] *)
Definition parseUri (uri : string) : string := replaceFirst "gdrive:///" "" uri.

(** The [switch] of the read handler. *)
Definition exportMimeTypeOf (mimeType : string) : string :=
  if String.eqb mimeType "application/vnd.google-apps.document" then "text/markdown"
  else if String.eqb mimeType "application/vnd.google-apps.spreadsheet" then "text/csv"
  else if String.eqb mimeType "application/vnd.google-apps.presentation" then "text/plain"
  else if String.eqb mimeType "application/vnd.google-apps.drawing" then "image/png"
  else "text/plain".

(** [x || fallback] on a string that may be missing: the empty string is
    falsy as well. *)
Definition orElse (x : option string) (fallback : string) : string :=
  match x with
  | Some (String _ _ as s) => s
  | _ => fallback
  end.

(** [query.replace(/\\/g, "\\\\").replace(/'/g, "\\'")] *)
Definition escapeQuery (query : string) : string :=
  replaceAll quote (backslash +:+ quote)
    (replaceAll backslash (backslash +:+ backslash) query).

(** [`fullText contains '${escapedQuery}'`] *)
Definition fullTextQuery (escapedQuery : string) : string :=
  "fullText contains " +:+ quote +:+ escapedQuery +:+ quote.

(** The syntax characters of a pattern: [^ $ \ . * + ? ( ) [ ] { } |]. *)
Definition isSyntaxCharacter (c : ascii) : bool :=
  let n := N_of_ascii c in
  ((n =? 94) || (n =? 36) || (n =? 92) || (n =? 46) || (n =? 42) || (n =? 43)
   || (n =? 63) || (n =? 40) || (n =? 41) || (n =? 91) || (n =? 93)
   || (n =? 123) || (n =? 125) || (n =? 124))%N.

(** A pattern without syntax characters matches its own text only. *)
Definition isLiteralPattern (p : string) : bool :=
  JsString.forallb (fun c => negb (isSyntaxCharacter c)) p.

(** Handler of [ListToolsRequestSchema]: the names of the tools with the
    keys their input schemas declare as [required]. *)
Definition listTools : list (string * list string) :=
  [ ("search", ["query"]);
    ("upload_file_with_content", ["name"; "content"]);
    ("update_file_content", ["fileId"; "newContent"]);
    ("delete_file", ["fileId"]);
    ("read_file_content", ["filename"]);
    ("append_file_content", ["filename"; "appendText"]);
    ("delete_from_file_content", ["filename"; "targetText"]) ].

(** ** Results of the handlers *)

(** [{ resources: [{ uri, mimeType, name }], nextCursor }] *)
Record Resource := {
  res_uri : string;
  res_mimeType : string;
  res_name : string;
}.

(** One entry of [contents]: [text] or [blob] is set. *)
Record Contents := {
  c_uri : string;
  c_mimeType : string;
  c_text : option string;
  c_blob : option string;
}.

(** [{ content: [{ type: "text", text }], isError }] *)
Record ToolResult := {
  text : string;
  isError : bool;
}.

(** ** The handlers *)

Section Server.

Context (P : Platform) (R : Remote).

(** What running a handler yields: its result or the error thrown, the
    remote service afterwards, and the calls issued, oldest first. *)
Record Run (A : Type) : Type := {
  outcome : Error + A;
  after : world R;
  calls : list Call;
}.
Arguments outcome {A}.
Arguments after {A}.
Arguments calls {A}.

Definition M (A : Type) : Type := world R -> Run A.

Definition ret {A} (a : A) : M A :=
  fun w => {| outcome := inr a; after := w; calls := [] |}.

Definition throw {A} (e : Error) : M A :=
  fun w => {| outcome := inl e; after := w; calls := [] |}.

Definition bind {A B} (m : M A) (k : A -> M B) : M B :=
  fun w =>
    let r := m w in
    match outcome r with
    | inr a =>
        let r' := k a (after r) in
        {| outcome := outcome r'; after := after r';
           calls := (calls r ++ calls r')%list |}
    | inl e => {| outcome := inl e; after := after r; calls := calls r |}
    end.

(** [await drive.files.X(...)] *)
Definition call (c : Call) : M (resp c) :=
  fun w =>
    match serve R c w with
    | (inr r, w') => {| outcome := inr r; after := w'; calls := [c] |}
    | (inl reason, w') =>
        {| outcome := inl (RemoteFailure reason); after := w'; calls := [c] |}
    end.

Notation "'let!' x ':=' m 'in' k" := (bind m (fun x => k))
  (at level 10, x name, m at level 100, k at level 200).

(** [async function resolveFileId(nameOrId)].  The tool handlers pass a
    property of the argument bag; an absent one reads as the text
    [undefined] in the test and in both templates, so the callers pass
    [ToString] of the property. *)
Definition resolveFileId (nameOrId : string) : M string :=
  if isFileIdShape nameOrId then ret nameOrId
  else
    let! searchRes := call (files_list (Some (nameQuery nameOrId)) 5
                                       "files(id, name)" None) in
    let files := default [] (files searchRes) in
    match files with
    | [] => throw (NotFound nameOrId)
    | [file] => ret (file_id file)
    | _ => throw (Ambiguous files)
    end.

(** [guessMimeType(filename)] *)
Definition guessMimeType (filename : option string) : string :=
  orElse (mime_lookup P filename) "application/octet-stream".

(** Handler of [ListResourcesRequestSchema]. *)
Definition listResources (cursor : option string)
  : M (list Resource * option string) :=
  let pageSize := 10 in
  let pageToken :=
    match cursor with
    | Some (String _ _ as c) => Some c
    | _ => None
    end in
  let! res := call (files_list None pageSize
                      "nextPageToken, files(id, name, mimeType)" pageToken) in
  let files := default [] (files res) in
  ret (map (fun file => {| res_uri := resourceUri (file_id file);
                           res_mimeType := file_mimeType file;
                           res_name := file_name file |}) files,
       nextPageToken res).

(** The read handler once the file id and its mime type are known. *)
Definition readContents (uri fileId mimeType : string) : M Contents :=
  if startsWith mimeType "application/vnd.google-apps" then
    let exportMimeType := exportMimeTypeOf mimeType in
    let! res := call (files_export_text fileId exportMimeType) in
    ret {| c_uri := uri; c_mimeType := exportMimeType;
           c_text := Some res; c_blob := None |}
  else
    let! res := call (files_get_arraybuffer fileId None) in
    if startsWith mimeType "text/" || String.eqb mimeType "application/json" then
      ret {| c_uri := uri; c_mimeType := mimeType;
             c_text := Some (toString_utf8 P res); c_blob := None |}
    else
      ret {| c_uri := uri; c_mimeType := mimeType;
             c_text := None; c_blob := Some (toString_base64 P res) |}.

(** Handler of [ReadResourceRequestSchema]. *)
Definition readResource (uri : string) : M Contents :=
  let! fileId := resolveFileId (parseUri uri) in
  let! fileRes := call (files_get_json fileId) in
  let mimeType := orElse fileRes "application/octet-stream" in
  readContents uri fileId mimeType.

(** [args.key]: reading a property of [undefined] is a TypeError. *)
Definition prop (args : option (gmap string string)) (key : string)
  : M (option string) :=
  match args with
  | Some bag => ret (bag !! key)
  | None => throw TypeError
  end.

(** A method call on, or [Buffer.from] of, a value that must be a string. *)
Definition asString (v : option string) : M string :=
  match v with
  | Some s => ret s
  | None => throw TypeError
  end.

Definition ok (text : string) : M ToolResult :=
  ret {| text := text; isError := false |}.

(** [res.data.files?.map(...).join("\n")] and the count of the search
    tool's answer. *)
Definition searchText (found : option (list File)) : string :=
  let fileList :=
    (fun fs => join LF (map (fun file => file_name file +:+ " (" +:+
                                         file_mimeType file +:+ ")") fs))
      <$> found in
  "Found " +:+ pretty (List.length (default [] found)) +:+ " files:" +:+ LF
  +:+ ToString fileList.

(** [currentContent.replace(new RegExp(targetText, "g"), "")]; an absent
    pattern compiles to the empty one. *)
Definition removePattern (targetText : option string) (s : string) : M string :=
  let pattern := default "" targetText in
  if isLiteralPattern pattern then ret (replaceAll pattern "" s)
  else match regexp_remove P pattern s with
       | Some s' => ret s'
       | None => throw SyntaxError
       end.

(** The branches of the handler of [CallToolRequestSchema], one per tool;
    [args] is [request.params.arguments], which may be absent. *)

Definition search (args : option (gmap string string)) : M ToolResult :=
  let! query := prop args "query" in
  let! query := asString query in
  let escapedQuery := escapeQuery query in
  let! res := call (files_list (Some (fullTextQuery escapedQuery)) 10
                      "files(id, name, mimeType, modifiedTime, size)" None) in
  ok (searchText (files res)).

Definition upload_file_with_content (args : option (gmap string string))
  : M ToolResult :=
  let! name := prop args "name" in
  let mimeType := guessMimeType name in
  let! content := prop args "content" in
  let! content := asString content in
  let! created := call (files_create name mimeType mimeType
                                     (Buffer_from P content)) in
  ok ("파일 업로드 완료: " +:+ created).

Definition update_file_content (args : option (gmap string string))
  : M ToolResult :=
  let! fileId := prop args "fileId" in
  let! fileId := resolveFileId (ToString fileId) in
  let! newContent := prop args "newContent" in
  let mimeType := "text/plain" in
  let! newContent := asString newContent in
  let! _ := call (files_update fileId mimeType (Buffer_from P newContent)) in
  ok ("파일 업데이트 완료: " +:+ fileId).

Definition delete_file (args : option (gmap string string)) : M ToolResult :=
  let! fileId := prop args "fileId" in
  let! fileId := resolveFileId (ToString fileId) in
  let! _ := call (files_delete fileId) in
  ok ("파일 삭제 완료: " +:+ fileId).

Definition read_file_content (args : option (gmap string string))
  : M ToolResult :=
  let! filename := prop args "filename" in
  let! fileId := resolveFileId (ToString filename) in
  let! fileRes := call (files_get_arraybuffer fileId (Some "media")) in
  let textContent := toString_utf8 P fileRes in
  ok textContent.

Definition append_file_content (args : option (gmap string string))
  : M ToolResult :=
  let! filename := prop args "filename" in
  let! fileId := resolveFileId (ToString filename) in
  let! fileRes := call (files_get_arraybuffer fileId (Some "media")) in
  let currentContent := toString_utf8 P fileRes in
  let! appendText := prop args "appendText" in
  let updatedContent := currentContent +:+ LF +:+ ToString appendText in
  let! _ := call (files_update fileId "text/plain"
                               (Buffer_from P updatedContent)) in
  ok ("파일에 텍스트 추가 완료: " +:+ fileId).

Definition delete_from_file_content (args : option (gmap string string))
  : M ToolResult :=
  let! filename := prop args "filename" in
  let! fileId := resolveFileId (ToString filename) in
  let! fileRes := call (files_get_arraybuffer fileId (Some "media")) in
  let currentContent := toString_utf8 P fileRes in
  let! targetText := prop args "targetText" in
  if negb (includes currentContent (ToString targetText)) then
    throw (TextNotFound (ToString targetText))
  else
    let! updatedContent := removePattern targetText currentContent in
    let! _ := call (files_update fileId "text/plain"
                                 (Buffer_from P updatedContent)) in
    ok ("파일에서 텍스트 삭제 완료: " +:+ fileId).

(** Handler of [CallToolRequestSchema]: the chain of comparisons of
    [request.params.name]. *)
Definition callTool (name : string) (args : option (gmap string string))
  : M ToolResult :=
  if String.eqb name "search" then search args
  else if String.eqb name "upload_file_with_content" then
    upload_file_with_content args
  else if String.eqb name "update_file_content" then update_file_content args
  else if String.eqb name "delete_file" then delete_file args
  else if String.eqb name "read_file_content" then read_file_content args
  else if String.eqb name "append_file_content" then append_file_content args
  else if String.eqb name "delete_from_file_content" then
    delete_from_file_content args
  else throw ToolNotFound.

End Server.

Arguments outcome {R A}.
Arguments after {R A}.
Arguments calls {R A}.

(** [issues Q m]: whatever the remote answers, [m] only issues calls that
    satisfy [Q]. *)
Definition issues {R A} (Q : Call -> Prop) (m : M R A) : Prop :=
  forall w, Forall Q (calls (m w)).

(** ** Reference definitions, worded after the specification *)

(** The read plans of the specification's Content-Type Strategy. *)
Inductive ReadPlan :=
| Export (targetMime : string)
| RawText
| RawBinary.

(** [planRead]: provider-native types are exported (document to markdown,
    spreadsheet to CSV, presentation to plain text, drawing to PNG, anything
    else in the namespace to plain text); [text/*] and JSON are raw text;
    everything else is raw binary. *)
Definition planRead (mimeType : string) : ReadPlan :=
  let native := "application/vnd.google-apps" in
  if startsWith mimeType native then
    match list_find (fun row => String.eqb mimeType (native +:+ fst row) = true)
            [(".document", "text/markdown"); (".spreadsheet", "text/csv");
             (".presentation", "text/plain"); (".drawing", "image/png")] with
    | Some (_, row) => Export (snd row)
    | None => Export "text/plain"
    end
  else if startsWith mimeType "text/" then RawText
  else if String.eqb mimeType "application/json" then RawText
  else RawBinary.

(** How a plan is carried out: an export call returning text, or a raw
    fetch decoded as UTF-8 or encoded as base64. *)
Definition executePlan (P : Platform) (R : Remote)
    (uri fileId mimeType : string) (plan : ReadPlan) : M R Contents :=
  match plan with
  | Export targetMime =>
      bind R (call R (files_export_text fileId targetMime)) (fun exported =>
      ret R {| c_uri := uri; c_mimeType := targetMime;
               c_text := Some exported; c_blob := None |})
  | RawText =>
      bind R (call R (files_get_arraybuffer fileId None)) (fun bytes =>
      ret R {| c_uri := uri; c_mimeType := mimeType;
               c_text := Some (toString_utf8 P bytes); c_blob := None |})
  | RawBinary =>
      bind R (call R (files_get_arraybuffer fileId None)) (fun bytes =>
      ret R {| c_uri := uri; c_mimeType := mimeType;
               c_text := None; c_blob := Some (toString_base64 P bytes) |})
  end.

(** Escaping, character by character: a backslash before every backslash
    and every single quote. *)
Definition escapeChar (c : ascii) : string :=
  if (N_of_ascii c =? 92)%N then backslash +:+ backslash
  else if (N_of_ascii c =? 39)%N then backslash +:+ quote
  else String c "".

Definition escapeEach (s : string) : string := flatMap escapeChar s.

(** The calls that change the remote store. *)
Definition isWrite (c : Call) : bool :=
  match c with
  | files_create _ _ _ _ | files_update _ _ _ | files_delete _ => true
  | _ => false
  end.

Definition isLookup (c : Call) : bool :=
  match c with
  | files_list _ _ _ _ => true
  | _ => false
  end.

(** A call that, if it writes, rewrites a body as [text/plain]. *)
Definition writesPlainText (c : Call) : Prop :=
  match c with
  | files_update _ media_mimeType _ => media_mimeType = "text/plain"
  | files_create _ _ _ _ | files_delete _ => False
  | _ => True
  end.

(** ** An in-memory drive and an ASCII runtime, to run the handlers *)

Module Sample.

Record Stored := {
  s_id : string;
  s_name : string;
  s_mimeType : string;
  s_body : string;
}.

Definition toFile (f : Stored) : File :=
  {| file_id := s_id f; file_name := s_name f; file_mimeType := s_mimeType f |}.

(** A name query finds the files of that name, no query finds all files,
    any other query finds none. *)
Definition matches (q : option string) (f : Stored) : bool :=
  match q with
  | None => true
  | Some q => String.eqb q (nameQuery (s_name f))
  end.

Definition lookupId (fileId : string) (w : list Stored) : option Stored :=
  List.find (fun f => String.eqb (s_id f) fileId) w.

Definition setBody (fileId body : string) (f : Stored) : Stored :=
  if String.eqb (s_id f) fileId
  then {| s_id := s_id f; s_name := s_name f; s_mimeType := s_mimeType f;
          s_body := body |}
  else f.

Definition serveStored (c : Call) (w : list Stored)
  : (string + resp c) * list Stored :=
  match c return (string + resp c) * list Stored with
  | files_list q _ _ _ =>
      (inr {| files := Some (map toFile (List.filter (matches q) w));
              nextPageToken := None |}, w)
  | files_get_json fileId =>
      match lookupId fileId w with
      | Some f => (inr (Some (s_mimeType f)), w)
      | None => (inl "File not found", w)
      end
  | files_get_arraybuffer fileId _ =>
      match lookupId fileId w with
      | Some f => (inr (s_body f), w)
      | None => (inl "File not found", w)
      end
  | files_export_text fileId _ =>
      match lookupId fileId w with
      | Some f => (inr (s_body f), w)
      | None => (inl "File not found", w)
      end
  | files_create name mimeType _ body =>
      let fileId := "created-" +:+ pretty (List.length w) in
      (inr fileId,
       (w ++ [{| s_id := fileId; s_name := ToString name;
                 s_mimeType := mimeType; s_body := body |}])%list)
  | files_update fileId _ body =>
      match lookupId fileId w with
      | Some _ => (inr tt, map (setBody fileId body) w)
      | None => (inl "File not found", w)
      end
  | files_delete fileId =>
      match lookupId fileId w with
      | Some _ =>
          (inr tt, List.filter (fun f => negb (String.eqb (s_id f) fileId)) w)
      | None => (inl "File not found", w)
      end
  end.

Definition drive : Remote := {| world := list Stored; serve := serveStored |}.

Definition b64char (n : N) : ascii :=
  (if n <? 26 then ascii_of_N (65 + n)
   else if n <? 52 then ascii_of_N (71 + n)
   else if n <? 62 then ascii_of_N (n - 4)
   else if n =? 62 then "+"%char else "/"%char)%N.

Fixpoint base64 (s : string) : string :=
  match s with
  | EmptyString => EmptyString
  | String a EmptyString =>
      let n := N_of_ascii a in
      String (b64char (n / 4)) (String (b64char (n mod 4 * 16)) "==")
  | String a (String b EmptyString) =>
      let n := N_of_ascii a in
      let m := N_of_ascii b in
      String (b64char (n / 4))
        (String (b64char (n mod 4 * 16 + m / 16))
           (String (b64char (m mod 16 * 4)) "="))
  | String a (String b (String c rest)) =>
      let n := N_of_ascii a in
      let m := N_of_ascii b in
      let k := N_of_ascii c in
      String (b64char (n / 4))
        (String (b64char (n mod 4 * 16 + m / 16))
           (String (b64char (m mod 16 * 4 + k / 64))
              (String (b64char (k mod 64)) (base64 rest))))
  end%N.

(** On ASCII text the UTF-8 codecs are the identity.  No file extension is
    known to the table and no pattern with syntax characters compiles. *)
Definition platform : Platform :=
  {| Buffer_from := fun text => text;
     toString_utf8 := fun bytes => bytes;
     toString_base64 := base64;
     mime_lookup := fun _ => None;
     regexp_remove := fun _ _ => None |}.

Definition notes : Stored :=
  {| s_id := "1AbCdEfGhIjKlMnOpQrStUvWxYz-0123456789_"; s_name := "notes.txt";
     s_mimeType := "text/plain"; s_body := "aabb" |}.

Definition stray : Stored :=
  {| s_id := "1ZyXwVuTsRqPoNmLkJiHgFeDcBa-9876543210_"; s_name := "undefined";
     s_mimeType := "text/plain"; s_body := "A" |}.

Definition memo : Stored :=
  {| s_id := "1MnBvCxZlKjHgFdSaPoIuYtReWq-5566778899_"; s_name := "memo.txt";
     s_mimeType := "text/plain"; s_body := "A" |}.

Definition report : Stored :=
  {| s_id := "1PlOkMiJnUhByGvTfCrDxEsZwAq-6677889900_"; s_name := "report";
     s_mimeType := "application/vnd.google-apps.document"; s_body := "# Report" |}.

Definition twin : Stored :=
  {| s_id := "1QwErTyUiOpAsDfGhJkLzXcVbNm-1122334455_"; s_name := "notes.txt";
     s_mimeType := "text/plain"; s_body := "other" |}.

End Sample.

(** Further files for the examples. *)
Module MoreSamples.

Definition untyped : Sample.Stored :=
  {| Sample.s_id := "1HgFdSaQwErTyUiOpLkJmNbVcXz-2233445566_";
     Sample.s_name := "dump"; Sample.s_mimeType := ""; Sample.s_body := "Man" |}.

Definition formula : Sample.Stored :=
  {| Sample.s_id := "1TrEwQaSdFgHjKlMnBvCxZpOiUy-3344556677_";
     Sample.s_name := "formula.txt"; Sample.s_mimeType := "text/plain";
     Sample.s_body := "f(x) is undefined" |}.

End MoreSamples.

(** ** Further predicates on handlers *)

(** [raises Q m]: whatever the remote answers, an error of [m] satisfies [Q]. *)
Definition raises {R A} (Q : Error -> Prop) (m : M R A) : Prop :=
  forall w, match outcome (m w) with
            | inl e => Q e
            | inr _ => True
            end.

(** [returns Q m]: whatever the remote answers, a result of [m] satisfies [Q]. *)
Definition returns {R A} (Q : A -> Prop) (m : M R A) : Prop :=
  forall w, match outcome (m w) with
            | inl _ => True
            | inr a => Q a
            end.

(** [costs n m]: whatever the remote answers, [m] issues at most [n] calls. *)
Definition costs {R A} (n : nat) (m : M R A) : Prop :=
  forall w, List.length (calls (m w)) <= n.

(** A raw fetch that asks for the content ([alt: "media"]) or not. *)
Definition fetchesWith (alt : option string) (c : Call) : Prop :=
  match c with
  | files_get_arraybuffer _ alt' => alt' = alt
  | _ => True
  end.

(** The reader's side of the escaping of the search tool: a backslash makes
    the character behind it stand for itself. *)
Fixpoint unescape (s : string) : string :=
  match s with
  | EmptyString => EmptyString
  | String c s' =>
      if (N_of_ascii c =? 92)%N then
        match s' with
        | EmptyString => String c EmptyString
        | String d s'' => String d (unescape s'')
        end
      else String c (unescape s')
  end.

(** ** Start-up *)

(** What the start-up code takes from its host: [path], [fs], [JSON], the
    OAuth helper and the transport.  A [None] is an exception thrown or a
    promise rejected. *)
Record Host := {
  credentials : Type;
  filesystem : Type;
  path_join : list string -> string;
  fs_existsSync : string -> filesystem -> bool;
  fs_readFileSync : string -> filesystem -> option string;
  fs_writeFileSync : string -> string -> filesystem -> option filesystem;
  JSON_parse : string -> option credentials;
  JSON_stringify : credentials -> string;
  authenticate : string -> list string -> option credentials;
  server_connect : option unit;
}.

(** What a start of the process does, in order. *)
Inductive Event (H : Host) :=
| console_log (line : string)
| console_error (line : string)
| console_error_caught
| process_exit (code : nat)
| wrote (path content : string)
| google_options (auth : credentials H)
| connected.

Arguments console_log {H}.
Arguments console_error {H}.
Arguments console_error_caught {H}.
Arguments process_exit {H}.
Arguments wrote {H}.
Arguments google_options {H}.
Arguments connected {H}.

Section Startup.

Context (H : Host).
Implicit Types (env : gmap string string) (disk : filesystem H).

(** [process.env.HOME || process.env.USERPROFILE || ""] *)
Definition homeDir env : string :=
  orElse (env !! "HOME") (orElse (env !! "USERPROFILE") "").

(** [const credentialsPath] *)
Definition credentialsPath env : string :=
  orElse (env !! "GDRIVE_CREDENTIALS_PATH")
         (path_join H [homeDir env; ".gmail-mcp"; "credentials.json"]).

(** The [keyfilePath] handed to [authenticate]. *)
Definition keyfilePath env : string :=
  orElse (env !! "GDRIVE_OAUTH_PATH")
         (path_join H [homeDir env; ".gmail-mcp"; "gcp-oauth.keys.json"]).

(** [authenticateAndSaveCredentials().catch(console.error)] *)
Definition authenticateAndSaveCredentials env disk
  : list (Event H) * filesystem H :=
  match authenticate H (keyfilePath env)
                     ["https://www.googleapis.com/auth/drive"] with
  | None => ([console_log "Launching auth flow…"; console_error_caught], disk)
  | Some auth =>
      let content := JSON_stringify H auth in
      match fs_writeFileSync H (credentialsPath env) content disk with
      | None => ([console_log "Launching auth flow…"; console_error_caught], disk)
      | Some disk' =>
          ([console_log "Launching auth flow…";
            wrote (credentialsPath env) content;
            console_log "Credentials saved. You can now run the server."],
           disk')
      end
  end.

(** [loadCredentialsAndRunServer().catch(console.error)] *)
Definition loadCredentialsAndRunServer env disk
  : list (Event H) * filesystem H :=
  if negb (fs_existsSync H (credentialsPath env) disk) then
    ([console_error "Credentials not found. Please run with 'auth' argument first.";
      process_exit 1], disk)
  else
    match fs_readFileSync H (credentialsPath env) disk with
    | None => ([console_error_caught], disk)
    | Some text =>
        match JSON_parse H text with
        | None => ([console_error_caught], disk)
        | Some creds =>
            match server_connect H with
            | Some _ => ([google_options creds; connected], disk)
            | None => ([google_options creds; console_error_caught], disk)
            end
        end
    end.

(** The last statement of the module: [process.argv[2] === "auth"]. *)
Definition main (argv : list string) env disk : list (Event H) * filesystem H :=
  match argv !! 2 with
  | Some arg =>
      if String.eqb arg "auth" then authenticateAndSaveCredentials env disk
      else loadCredentialsAndRunServer env disk
  | None => loadCredentialsAndRunServer env disk
  end.

End Startup.

(** A host for the examples: files in a map, credentials that are their own
    JSON text, a path join with slashes. *)
Module SampleHost.

Definition host : Host :=
  {| credentials := string;
     filesystem := gmap string string;
     path_join := fun parts => join "/" parts;
     fs_existsSync := fun path disk => bool_decide (is_Some (disk !! path));
     fs_readFileSync := fun path disk => disk !! path;
     fs_writeFileSync := fun path content disk => Some (<[path := content]> disk);
     JSON_parse := fun text => Some text;
     JSON_stringify := fun creds => creds;
     authenticate := fun keyfile scopes => Some ("token for " +:+ keyfile);
     server_connect := Some tt |}.

Definition env : gmap string string := {[ "HOME" := "/home/ann" ]}.

End SampleHost.

(** * Properties *)

(** ** Strings *)

Module JsStringFacts.

Lemma prefix_cons a p b s :
  String.prefix (String a p) (String b s) = true <->
  a = b /\ String.prefix p s = true.
Proof.
  simpl. destruct (ascii_dec a b) as [->|Hne]; split;
    try tauto; discriminate.
Qed.

Lemma prefix_app p s : String.prefix p (p +:+ s) = true.
Proof.
  induction p as [|a p IH]; simpl.
  - now destruct s.
  - destruct (ascii_dec a a); [exact IH | contradiction].
Qed.

Lemma prefix_length p s :
  String.prefix p s = true -> String.length p <= String.length s.
Proof.
  revert s. induction p as [|a p IH]; intros s H; simpl; [lia|].
  destruct s as [|b s]; [discriminate|].
  apply prefix_cons in H as [_ H]. apply IH in H. simpl. lia.
Qed.

Lemma prefix_empty p : String.prefix p "" = true -> p = "".
Proof. destruct p; [reflexivity | discriminate]. Qed.

Lemma drop_app p s : drop (String.length p) (p +:+ s) = s.
Proof. induction p as [|a p IH]; simpl; [now destruct s | exact IH]. Qed.

Lemma length_app s t :
  String.length (s +:+ t) = String.length s + String.length t.
Proof. induction s as [|a s IH]; simpl; [reflexivity | now rewrite IH]. Qed.

Lemma app_assoc s t u : (s +:+ t) +:+ u = s +:+ t +:+ u.
Proof. induction s as [|a s IH]; simpl; [reflexivity | now rewrite IH]. Qed.

Lemma replaceFirst_prefix pat repl s :
  String.prefix pat s = true ->
  replaceFirst pat repl s = repl +:+ drop (String.length pat) s.
Proof. intros H. destruct s; simpl in *; now rewrite H. Qed.

(** Removing a pattern that stands at the front leaves the rest. *)
Lemma replaceFirst_front pat s : replaceFirst pat "" (pat +:+ s) = s.
Proof.
  rewrite replaceFirst_prefix by apply prefix_app. now rewrite drop_app.
Qed.

(** The text occurs iff it occurs at some position. *)
Lemma includes_occurrences s t :
  includes s t = true <-> 0 < occurrences t s.
Proof.
  induction s as [|c s IH]; cbn [includes occurrences].
  - destruct (String.prefix t ""); split; intros; try lia; try discriminate;
      reflexivity.
  - destruct (String.prefix t (String c s)); [split; [lia | reflexivity]|].
    rewrite IH. simpl. reflexivity.
Qed.

Lemma includes_prefix s t : String.prefix t s = true -> includes s t = true.
Proof. intros H. destruct s; cbn [includes]; now rewrite H. Qed.

Lemma includes_app pre t post : includes (pre +:+ t +:+ post) t = true.
Proof.
  induction pre as [|c pre IH].
  - change ("" +:+ t +:+ post) with (t +:+ post).
    apply includes_prefix, prefix_app.
  - change (String c pre +:+ t +:+ post) with (String c (pre +:+ t +:+ post)).
    cbn [includes]. rewrite IH. now destruct (String.prefix t _).
Qed.

Lemma includes_app_r u s t :
  includes s t = true -> includes (u +:+ s) t = true.
Proof.
  intros H. induction u as [|c u IH]; [exact H|].
  change (String c u +:+ s) with (String c (u +:+ s)).
  cbn [includes]. rewrite IH. now destruct (String.prefix t _).
Qed.

(** The scan of [replaceAll] for a removal: every match takes the length
    of the pattern off the text. *)
Lemma removeAll_length_go lit k s :
  k <= String.length s ->
  String.length (replaceAll_go lit "" k s)
  + countMatches_go lit k s * String.length lit + k
  = String.length s.
Proof.
  revert k. induction s as [|c s IH]; intros k Hk; simpl in Hk.
  - assert (k = 0) as -> by lia. simpl. destruct lit; simpl; lia.
  - destruct k as [|k]; simpl.
    + destruct lit as [|a lit].
      * simpl. specialize (IH 0 ltac:(lia)). simpl in IH. lia.
      * destruct (ascii_dec a c) as [->|Hne].
        -- destruct (String.prefix lit s) eqn:Hp; simpl.
           ++ pose proof (prefix_length _ _ Hp) as Hl.
              specialize (IH _ Hl). simpl in IH. lia.
           ++ specialize (IH 0 ltac:(lia)). simpl in IH. lia.
        -- simpl. specialize (IH 0 ltac:(lia)). simpl in IH. lia.
    + specialize (IH k ltac:(lia)). lia.
Qed.

Lemma removeAll_length lit s :
  String.length (replaceAll lit "" s) + countMatches lit s * String.length lit
  = String.length s.
Proof.
  unfold replaceAll, countMatches.
  pose proof (removeAll_length_go lit 0 s ltac:(lia)). lia.
Qed.

(** A text that contains the pattern has a first match. *)
Lemma countMatches_includes lit s :
  includes s lit = true -> 1 <= countMatches lit s.
Proof.
  unfold countMatches. induction s as [|c s IH]; simpl.
  - intros H. destruct lit; [lia | discriminate].
  - destruct (String.prefix lit (String c s)) eqn:Hp.
    + simpl in Hp. rewrite Hp. intros _. destruct lit; lia.
    + simpl in Hp. rewrite Hp. exact IH.
Qed.

(** Every match of the scan is an occurrence. *)
Lemma countMatches_go_occurrences lit k s :
  countMatches_go lit k s <= occurrences lit s.
Proof.
  revert k. induction s as [|c s IH]; intros k.
  - simpl. destruct k, lit; simpl; lia.
  - destruct k as [|k].
    + cbn [countMatches_go occurrences].
      destruct (String.prefix lit (String c s)).
      * destruct lit; [specialize (IH 0) | specialize (IH (String.length lit))];
          lia.
      * specialize (IH 0). lia.
    + cbn [countMatches_go occurrences]. specialize (IH k). lia.
Qed.

Lemma countMatches_occurrences lit s :
  countMatches lit s <= occurrences lit s.
Proof. apply countMatches_go_occurrences. Qed.

(** Replacing a one-character pattern maps each character on its own. *)
Lemma replaceAll_char a repl s :
  replaceAll (String a "") repl s =
  flatMap (fun c => if ascii_dec a c then repl else String c "") s.
Proof.
  unfold replaceAll. induction s as [|c s IH]; [reflexivity|].
  cbn [replaceAll_go String.prefix String.length flatMap].
  destruct (ascii_dec a c).
  - destruct s; cbn [String.prefix]; now rewrite IH.
  - simpl. now rewrite IH.
Qed.

Lemma flatMap_app f s t : flatMap f (s +:+ t) = flatMap f s +:+ flatMap f t.
Proof.
  induction s as [|c s IH]; [reflexivity|].
  change (String c s +:+ t) with (String c (s +:+ t)).
  cbn [flatMap]. now rewrite IH, app_assoc.
Qed.

Lemma flatMap_flatMap f g s :
  flatMap g (flatMap f s) = flatMap (fun c => flatMap g (f c)) s.
Proof.
  induction s as [|c s IH]; [reflexivity|].
  cbn [flatMap]. now rewrite flatMap_app, IH.
Qed.

Lemma flatMap_ext f g s : (forall c, f c = g c) -> flatMap f s = flatMap g s.
Proof.
  intros H. induction s as [|c s IH]; [reflexivity|].
  cbn [flatMap]. now rewrite H, IH.
Qed.

Lemma join_In sep x xs :
  In x xs -> exists pre post, join sep xs = pre +:+ x +:+ post.
Proof.
  induction xs as [|y ys IH]; [intros []|].
  intros [->|Hin].
  - exists "". destruct ys; simpl; eauto. exists "". clear.
    induction x; simpl; congruence.
  - destruct (IH Hin) as (pre & post & E).
    destruct ys as [|z zs]; [destruct Hin|].
    exists (y +:+ sep +:+ pre), post.
    change (join sep (y :: z :: zs)) with (y +:+ sep +:+ join sep (z :: zs)).
    rewrite E. now rewrite !app_assoc.
Qed.

End JsStringFacts.
Import JsStringFacts.

(** ** The monad: what a handler issues *)

Section MonadFacts.

Context {R : Remote}.

Lemma run_eta {A} (r : Run R A) :
  r = {| outcome := outcome r; after := after r; calls := calls r |}.
Proof. now destruct r. Qed.

Lemma bind_returns {A B} (m : M R A) (k : A -> M R B) w a :
  outcome (m w) = inr a ->
  bind R m k w =
  {| outcome := outcome (k a (after (m w)));
     after := after (k a (after (m w)));
     calls := (calls (m w) ++ calls (k a (after (m w))))%list |}.
Proof. unfold bind. now intros ->. Qed.

Lemma bind_throws {A B} (m : M R A) (k : A -> M R B) w e :
  outcome (m w) = inl e ->
  bind R m k w =
  {| outcome := inl e; after := after (m w); calls := calls (m w) |}.
Proof. unfold bind. now intros ->. Qed.

Lemma call_returns (c : Call) w (r : resp c) w' :
  serve R c w = (inr r, w') ->
  call R c w = {| outcome := inr r; after := w'; calls := [c] |}.
Proof. unfold call. now intros ->. Qed.

Lemma bind_ret {A B} (a : A) (k : A -> M R B) w :
  bind R (ret R a) k w = k a w.
Proof. unfold bind, ret. cbn. now destruct (k a w). Qed.

Lemma bind_call_returns {B} (c : Call) (k : resp c -> M R B) w r w' :
  serve R c w = (inr r, w') ->
  bind R (call R c) k w =
  {| outcome := outcome (k r w'); after := after (k r w');
     calls := c :: calls (k r w') |}.
Proof. intros H. unfold bind. now rewrite (call_returns _ _ _ _ H). Qed.

Lemma call_calls (c : Call) w : calls (call R c w) = [c].
Proof. unfold call. now destruct (serve R c w) as [[?|?] ?]. Qed.

Lemma issues_ret {A} Q (a : A) : issues Q (ret R a).
Proof. intros w. constructor. Qed.

Lemma issues_throw {A} Q e : issues Q (@throw R A e).
Proof. intros w. constructor. Qed.

Lemma issues_call Q c : Q c -> issues Q (call R c).
Proof. intros H w. rewrite call_calls. now repeat constructor. Qed.

Lemma issues_bind {A B} Q (m : M R A) (k : A -> M R B) :
  issues Q m -> (forall a, issues Q (k a)) -> issues Q (bind R m k).
Proof.
  intros Hm Hk w. unfold bind.
  destruct (outcome (m w)) as [e|a] eqn:E; simpl; [apply Hm|].
  apply Forall_app. split; [apply Hm | apply Hk].
Qed.

Lemma issues_weaken {A} (Q Q' : Call -> Prop) (m : M R A) :
  (forall c, Q c -> Q' c) -> issues Q m -> issues Q' m.
Proof. intros H Hm w. eapply Forall_impl; [apply Hm | exact H]. Qed.

End MonadFacts.

(** Splits an [issues] goal along the structure of a handler. *)
Ltac issues_step :=
  lazymatch goal with
  | |- issues _ (bind _ _ _) => apply issues_bind; [|intros ?]
  | |- issues _ (ret _ _) => apply issues_ret
  | |- issues _ (throw _ _) => apply issues_throw
  | |- issues _ (call _ _) => apply issues_call; simpl; try reflexivity
  | |- issues _ (match ?x with _ => _ end) => destruct x
  | |- issues _ (if ?b then _ else _) => destruct b
  end.

(** ** The handlers *)

Section HandlerFacts.

Context (P : Platform) (R : Remote).
Implicit Types (w : world R) (bag : gmap string string).

Lemma resolveFileId_shape nameOrId w :
  isFileIdShape nameOrId = true ->
  resolveFileId R nameOrId w =
  {| outcome := inr nameOrId; after := w; calls := [] |}.
Proof. unfold resolveFileId. now intros ->. Qed.

Lemma resolveFileId_other_calls nameOrId w :
  isFileIdShape nameOrId = false ->
  calls (resolveFileId R nameOrId w) =
  [files_list (Some (nameQuery nameOrId)) 5 "files(id, name)" None].
Proof.
  unfold resolveFileId. intros ->. unfold bind, call.
  destruct (serve R _ w) as [[reason|found] w']; cbn; [reflexivity|].
  now destruct (default [] (files found)) as [|f [|g fs]].
Qed.

(** The resolver issues lookups only. *)
Lemma resolveFileId_lookups nameOrId :
  issues (fun c => isLookup c = true) (resolveFileId R nameOrId).
Proof.
  unfold resolveFileId. repeat issues_step.
Qed.

Lemma resolveFileId_reads nameOrId :
  issues (fun c => isWrite c = false) (resolveFileId R nameOrId).
Proof.
  eapply issues_weaken; [|apply resolveFileId_lookups].
  now intros [].
Qed.

Lemma resolveFileId_plain nameOrId :
  issues writesPlainText (resolveFileId R nameOrId).
Proof.
  eapply issues_weaken; [|apply resolveFileId_lookups].
  now intros [].
Qed.

(** The message of an ambiguity names every candidate with its id. *)
Lemma ambiguous_lists_candidates (candidates : list File) :
  Forall (fun file =>
            includes (message (Ambiguous candidates)) (candidateLine file) = true)
         candidates.
Proof.
  apply List.Forall_forall. intros file Hin.
  destruct (join_In LF (candidateLine file) (map candidateLine candidates))
    as (pre & post & E); [now apply in_map|].
  unfold message. rewrite E.
  do 3 apply includes_app_r. apply includes_app.
Qed.

(** C1.  The Identifier Resolver: an input of the opaque-id shape (twenty
    or more word characters and hyphens) is returned unchanged without any
    remote call.  Any other input costs exactly one exact-name lookup, the
    query [name = '...'] with the input between the quotes; when the lookup
    answers, no match fails [NotFound], a single match yields its id, and
    two or more matches fail [Ambiguous] with a message that holds, for
    every candidate, a line with its name and its id. *)
Theorem resolveFileId_behaviour (nameOrId : string) w :
  let lookup := files_list (Some ("name = '" +:+ nameOrId +:+ "'")) 5
                           "files(id, name)" None in
  let r := resolveFileId R nameOrId w in
  if isFileIdShape nameOrId then
    outcome r = inr nameOrId /\ calls r = [] /\ after r = w
  else
    calls r = [lookup] /\
    match serve R lookup w with
    | (inl reason, _) => outcome r = inl (RemoteFailure reason)
    | (inr found, _) =>
        match default [] (files found) with
        | [] => outcome r = inl (NotFound nameOrId)
        | [file] => outcome r = inr (file_id file)
        | candidates =>
            outcome r = inl (Ambiguous candidates) /\
            Forall (fun file =>
                      includes (message (Ambiguous candidates))
                               ("• " +:+ file_name file +:+ " (ID: "
                                +:+ file_id file +:+ ")") = true) candidates
        end
    end.
Proof.
  intros lookup r. subst r. unfold resolveFileId.
  destruct (isFileIdShape nameOrId); [now cbn|].
  change (files_list (Some (nameQuery nameOrId)) 5 "files(id, name)" None)
    with lookup.
  unfold bind, call.
  destruct (serve R lookup w) as [[reason|found] w'];
    cbn -[message includes candidateLine]; [easy|].
  destruct (default [] (files found)) as [|f [|g fs]] eqn:E;
    cbn -[message includes candidateLine]; try easy.
  repeat split. apply ambiguous_lists_candidates.
Qed.

(** The read handler after the resolver issues no lookup. *)
Lemma readContents_no_lookup uri fileId mimeType :
  issues (fun c => isLookup c = false) (readContents P R uri fileId mimeType).
Proof. unfold readContents. repeat issues_step. Qed.

Lemma planRead_native rest :
  planRead ("application/vnd.google-apps" +:+ rest) =
  Export (exportMimeTypeOf ("application/vnd.google-apps" +:+ rest)).
Proof.
  unfold planRead, exportMimeTypeOf, startsWith.
  rewrite prefix_app. cbn [list_find fst snd].
  change ("application/vnd.google-apps" +:+ ".document")
    with "application/vnd.google-apps.document".
  change ("application/vnd.google-apps" +:+ ".spreadsheet")
    with "application/vnd.google-apps.spreadsheet".
  change ("application/vnd.google-apps" +:+ ".presentation")
    with "application/vnd.google-apps.presentation".
  change ("application/vnd.google-apps" +:+ ".drawing")
    with "application/vnd.google-apps.drawing".
  destruct (String.eqb _ "application/vnd.google-apps.document");
    [reflexivity|].
  destruct (String.eqb _ "application/vnd.google-apps.spreadsheet");
    [reflexivity|].
  destruct (String.eqb _ "application/vnd.google-apps.presentation");
    [reflexivity|].
  destruct (String.eqb _ "application/vnd.google-apps.drawing"); reflexivity.
Qed.

Lemma startsWith_split s p :
  startsWith s p = true <-> exists rest, s = p +:+ rest.
Proof.
  unfold startsWith. split.
  - revert s. induction p as [|a p IH]; intros s H; [now exists s|].
    destruct s as [|b s]; [discriminate|].
    apply prefix_cons in H as [-> H]. destruct (IH _ H) as [rest ->].
    now exists rest.
  - intros [rest ->]. apply prefix_app.
Qed.

Lemma planRead_export_or_raw mimeType :
  planRead mimeType =
  if startsWith mimeType "application/vnd.google-apps"
  then Export (exportMimeTypeOf mimeType)
  else if startsWith mimeType "text/" || String.eqb mimeType "application/json"
       then RawText else RawBinary.
Proof.
  destruct (startsWith mimeType "application/vnd.google-apps") eqn:E.
  - apply startsWith_split in E as [rest ->]. apply planRead_native.
  - unfold planRead. rewrite E.
    now destruct (startsWith mimeType "text/"),
                 (String.eqb mimeType "application/json").
Qed.

(** C2.  The read plan is a function of the mime string alone: the read
    handler does what carrying out [planRead mimeType] does, whatever the
    remote state; in the provider-native namespace the plan is an export
    by the fixed table (document to markdown, spreadsheet to CSV,
    presentation to plain text, drawing to PNG, anything else to plain
    text); [text/...] and [application/json] are read as raw UTF-8 text;
    a mime string is read as raw base64 binary exactly when it is none of
    these. *)
Theorem readContents_plan (uri fileId mimeType : string) w :
  readContents P R uri fileId mimeType w
  = executePlan P R uri fileId mimeType (planRead mimeType) w
  /\ (forall rest,
        planRead ("application/vnd.google-apps" +:+ rest) =
        Export (if String.eqb rest ".document" then "text/markdown"
                else if String.eqb rest ".spreadsheet" then "text/csv"
                else if String.eqb rest ".presentation" then "text/plain"
                else if String.eqb rest ".drawing" then "image/png"
                else "text/plain"))
  /\ (forall rest, planRead ("text/" +:+ rest) = RawText)
  /\ planRead "application/json" = RawText
  /\ (planRead mimeType = RawBinary <->
      startsWith mimeType "application/vnd.google-apps" = false /\
      startsWith mimeType "text/" = false /\
      mimeType <> "application/json").
Proof.
  split; [|split; [|split; [|split]]].
  - rewrite planRead_export_or_raw. unfold readContents, executePlan.
    destruct (startsWith mimeType "application/vnd.google-apps");
      [reflexivity|].
    unfold bind.
    destruct (startsWith mimeType "text/" || String.eqb mimeType "application/json");
      reflexivity.
  - intros rest. rewrite planRead_native. reflexivity.
  - intros rest. rewrite planRead_export_or_raw.
    change (startsWith ("text/" +:+ rest) "application/vnd.google-apps")
      with false.
    unfold startsWith. now rewrite prefix_app.
  - reflexivity.
  - rewrite planRead_export_or_raw.
    destruct (startsWith mimeType "application/vnd.google-apps");
      [split; [discriminate | now intros [? _]]|].
    destruct (startsWith mimeType "text/");
      [split; [discriminate | now intros (_ & ? & _)]|].
    destruct (String.eqb_spec mimeType "application/json") as [->|Hne];
      cbn; split; try discriminate; easy.
Qed.

Lemma readResource_tail_no_lookup uri fileId :
  issues (fun c => isLookup c = false)
    (bind R (call R (files_get_json fileId)) (fun fileRes =>
       readContents P R uri fileId (orElse fileRes "application/octet-stream"))).
Proof.
  apply issues_bind; [now apply issues_call|].
  intros fileRes. apply readContents_no_lookup.
Qed.

(** C3, as the code has it.  The read handler hands the URI, with its
    first [gdrive:///] removed, to the Identifier Resolver.  When that
    text has the opaque-id shape the request issues no lookup call at
    all; otherwise the request starts with one exact-name lookup for that
    text, and that is its only lookup. *)
Theorem readResource_lookup (uri : string) w :
  let r := readResource P R uri w in
  if isFileIdShape (parseUri uri) then
    Forall (fun c => isLookup c = false) (calls r)
  else
    exists rest,
      calls r = files_list (Some (nameQuery (parseUri uri))) 5
                           "files(id, name)" None :: rest
      /\ Forall (fun c => isLookup c = false) rest.
Proof.
  intros r. subst r. unfold readResource.
  destruct (isFileIdShape (parseUri uri)) eqn:E.
  - unfold bind at 1. rewrite (resolveFileId_shape _ w E). cbn [outcome calls app after].
    apply readResource_tail_no_lookup.
  - pose proof (resolveFileId_other_calls _ w E) as Hc.
    destruct (outcome (resolveFileId R (parseUri uri) w)) as [e|fileId] eqn:Ho.
    + rewrite (bind_throws _ _ _ _ Ho), Hc. cbn [calls]. eauto.
    + rewrite (bind_returns _ _ _ _ Ho), Hc. cbn [calls app].
      eexists. split; [reflexivity|]. apply readResource_tail_no_lookup.
Qed.

(** C4.  A resource URI built from a file id ([gdrive:///] followed by
    the raw id) parses back to that id; this holds for every id, with or
    without a scheme separator inside. *)
Theorem parseUri_resourceUri (fileId : string) :
  parseUri (resourceUri fileId) = fileId.
Proof.
  unfold parseUri, resourceUri. apply replaceFirst_front.
Qed.

(** A URI built from an id of the opaque-id shape is read by that id. *)
Lemma readResource_reads_listed (fileId : string) w :
  isFileIdShape fileId = true ->
  exists rest,
    calls (readResource P R (resourceUri fileId) w) = files_get_json fileId :: rest.
Proof.
  intros Hshape. unfold readResource, parseUri, resourceUri.
  rewrite replaceFirst_front. unfold bind at 1.
  rewrite (resolveFileId_shape _ w Hshape). cbn [outcome calls app after].
  unfold bind. rewrite call_calls.
  destruct (outcome (call R (files_get_json fileId) w)); cbn [calls app]; eauto.
Qed.

(** Every URI of a listing parses back to the id of its file. *)
Lemma listResources_uris cursor w resources next :
  outcome (listResources R cursor w) = inr (resources, next) ->
  Forall (fun res => resourceUri (parseUri (res_uri res)) = res_uri res) resources.
Proof.
  unfold listResources, bind, call, ret.
  destruct (serve R _ w) as [[reason|found] w']; cbn [outcome after];
    [discriminate|].
  intros [= <- _]. apply List.Forall_forall. intros res Hin.
  apply in_map_iff in Hin as (file & <- & _). cbn [res_uri].
  unfold parseUri, resourceUri. now rewrite replaceFirst_front.
Qed.

(** *** The tools *)

(** Splits an [issues] goal along a tool, the resolver taken whole. *)
Ltac tool_issues lemma :=
  repeat first
    [ apply lemma
    | issues_step
    | progress unfold prop, asString, ok, removePattern ].

(** C5.  When the resolver has found the file and the text fetched from
    it does not contain the target text, [delete_from_file_content] fails
    [TextNotFound]; after the lookups of the resolver the only call is the
    fetch, no call writes, and the remote is left as the fetch left it. *)
Theorem delete_absent_text bag w (fileId data : string) w' :
  let r := resolveFileId R (ToString (bag !! "filename")) w in
  let fetch := files_get_arraybuffer fileId (Some "media") in
  let target := ToString (bag !! "targetText") in
  outcome r = inr fileId ->
  serve R fetch (after r) = (inr data, w') ->
  includes (toString_utf8 P data) target = false ->
  let t := callTool P R "delete_from_file_content" (Some bag) w in
  outcome t = inl (TextNotFound target)
  /\ calls t = (calls r ++ [fetch])%list
  /\ Forall (fun c => isWrite c = false) (calls t)
  /\ after t = w'.
Proof.
  intros r fetch target Hr Hfetch Habsent t.
  assert (t = {| outcome := inl (TextNotFound target); after := w';
                 calls := (calls r ++ [fetch])%list |}) as ->.
  { subst t. change (callTool P R "delete_from_file_content" (Some bag) w)
      with (delete_from_file_content P R (Some bag) w).
    unfold delete_from_file_content, prop. rewrite bind_ret.
    rewrite (bind_returns _ _ _ _ Hr).
    rewrite (bind_call_returns _ _ _ _ _ Hfetch), bind_ret.
    fold target. rewrite Habsent. reflexivity. }
  cbn [outcome calls after]. repeat split.
  apply Forall_app. split; [apply resolveFileId_reads | now repeat constructor].
Qed.

(** C6, as the code has it.  When the target text holds no syntax
    character and occurs in the text fetched from the file,
    [delete_from_file_content] rewrites the file with the text from which
    the matches of one scan from the left are removed: the occurrences
    that do not overlap an earlier match.  With [n] the number of those
    matches, the new length is the old length less [n] times the length of
    the target, and [n] is at least one and at most the number of
    occurrences. *)
Theorem delete_literal_text bag w (fileId data target : string) w' :
  let r := resolveFileId R (ToString (bag !! "filename")) w in
  let fetch := files_get_arraybuffer fileId (Some "media") in
  let content := toString_utf8 P data in
  let updated := replaceAll target "" content in
  let n := countMatches target content in
  bag !! "targetText" = Some target ->
  isLiteralPattern target = true ->
  outcome r = inr fileId ->
  serve R fetch (after r) = (inr data, w') ->
  includes content target = true ->
  calls (callTool P R "delete_from_file_content" (Some bag) w)
  = (calls r ++ [fetch; files_update fileId "text/plain" (Buffer_from P updated)])%list
  /\ String.length updated = String.length content - n * String.length target
  /\ 1 <= n <= occurrences target content.
Proof.
  intros r fetch content updated n Htarget Hliteral Hr Hfetch Hpresent.
  split; [|split].
  - change (callTool P R "delete_from_file_content" (Some bag) w)
      with (delete_from_file_content P R (Some bag) w).
    unfold delete_from_file_content, prop. rewrite bind_ret.
    rewrite (bind_returns _ _ _ _ Hr).
    rewrite (bind_call_returns _ _ _ _ _ Hfetch), bind_ret.
    rewrite Htarget. cbn [ToString]. fold content. rewrite Hpresent.
    cbn [negb]. unfold removePattern.
    change (default "" (Some target)) with target. rewrite Hliteral.
    rewrite bind_ret. unfold bind.
    rewrite call_calls. cbn [calls].
    destruct (outcome (call R _ w')); cbn [calls]; now rewrite ?app_nil_r.
  - pose proof (removeAll_length target content). subst updated n. lia.
  - split; [now apply countMatches_includes | apply countMatches_occurrences].
Qed.

(** C7.  When the resolver has found the file and its text [C] has been
    fetched, [append_file_content] writes back [C], a newline (the line
    feed, character 10) and the appended text, as the body of one update of
    that file. *)
Theorem append_writes_concatenation bag w (fileId data appendText : string) w' :
  let r := resolveFileId R (ToString (bag !! "filename")) w in
  let fetch := files_get_arraybuffer fileId (Some "media") in
  let C := toString_utf8 P data in
  bag !! "appendText" = Some appendText ->
  outcome r = inr fileId ->
  serve R fetch (after r) = (inr data, w') ->
  calls (callTool P R "append_file_content" (Some bag) w)
  = (calls r ++ [fetch; files_update fileId "text/plain"
                          (Buffer_from P (C +:+ String "010" appendText))])%list.
Proof.
  intros r fetch C Hbag Hr Hfetch.
  change (callTool P R "append_file_content" (Some bag) w)
    with (append_file_content P R (Some bag) w).
  unfold append_file_content, prop. rewrite bind_ret.
  rewrite (bind_returns _ _ _ _ Hr).
  rewrite (bind_call_returns _ _ _ _ _ Hfetch), bind_ret.
  rewrite Hbag. cbn [ToString]. fold C. unfold bind.
  rewrite call_calls. cbn [calls].
  destruct (outcome (call R _ w')); cbn [calls]; now rewrite ?app_nil_r.
Qed.

Lemma escapeQuery_escapeEach query : escapeQuery query = escapeEach query.
Proof.
  unfold escapeQuery, escapeEach, quote, backslash.
  rewrite !replaceAll_char, flatMap_flatMap.
  apply flatMap_ext. intros c. unfold escapeChar.
  destruct (ascii_dec "092" c) as [<-|Hb]; [reflexivity|].
  destruct (N.eqb_spec (N_of_ascii c) 92) as [E|_].
  { exfalso. apply Hb. rewrite <- (ascii_N_embedding c), E. reflexivity. }
  cbn [flatMap]. destruct (ascii_dec "039" c) as [<-|Hq]; [reflexivity|].
  destruct (N.eqb_spec (N_of_ascii c) 39) as [E|_]; [|reflexivity].
  exfalso. apply Hq. rewrite <- (ascii_N_embedding c), E. reflexivity.
Qed.

(** C8.  The search tool issues one [fullText contains] query of page
    size 10 in which the user's query is escaped, a backslash put before
    every backslash and every single quote of it; the resolver's lookup
    puts the name between the quotes as it is. *)
Theorem search_escapes_lookup_does_not bag (query nameOrId : string) w :
  bag !! "query" = Some query ->
  isFileIdShape nameOrId = false ->
  escapeQuery query = flatMap escapeChar query
  /\ calls (callTool P R "search" (Some bag) w)
     = [files_list
          (Some ("fullText contains " +:+ quote +:+ flatMap escapeChar query
                 +:+ quote))
          10 "files(id, name, mimeType, modifiedTime, size)" None]
  /\ calls (resolveFileId R nameOrId w)
     = [files_list (Some ("name = " +:+ quote +:+ nameOrId +:+ quote))
          5 "files(id, name)" None].
Proof.
  intros Hquery Hshape. split; [apply escapeQuery_escapeEach|]. split.
  - change (callTool P R "search" (Some bag) w) with (search R (Some bag) w).
    unfold search, prop. rewrite bind_ret, Hquery.
    unfold asString. rewrite bind_ret, escapeQuery_escapeEach.
    unfold bind. rewrite call_calls.
    destruct (outcome (call R _ w)); cbn [calls]; now rewrite ?app_nil_r.
  - now apply resolveFileId_other_calls.
Qed.

(** C9, as the code has it.  The dispatcher has no check of required keys
    of its own.  What stops an invocation before any remote call is the
    runtime: a registered tool invoked without an argument bag, a search
    whose bag has no [query] and an upload whose bag has no [content],
    whatever else these bags hold, fail with a TypeError and issue no
    call. *)
Theorem absent_arguments (name : string) (searched uploaded : gmap string string) w :
  In name (map fst listTools) ->
  searched !! "query" = None ->
  uploaded !! "content" = None ->
  let stopped := {| outcome := inl TypeError; after := w; calls := [] |} in
  callTool P R name None w = stopped
  /\ callTool P R "search" (Some searched) w = stopped
  /\ callTool P R "upload_file_with_content" (Some uploaded) w = stopped.
Proof.
  intros Hname Hquery Hcontent stopped. split; [|split].
  - cbn in Hname.
    destruct Hname as [<-|[<-|[<-|[<-|[<-|[<-|[<-|[]]]]]]]]; reflexivity.
  - change (callTool P R "search" (Some searched) w)
      with (search R (Some searched) w).
    unfold search, prop. now rewrite bind_ret, Hquery.
  - change (callTool P R "upload_file_with_content" (Some uploaded) w)
      with (upload_file_with_content P R (Some uploaded) w).
    unfold upload_file_with_content, prop. now rewrite !bind_ret, Hcontent.
Qed.

(** C10.  Whatever the arguments and the remote, every call of
    [update_file_content], [append_file_content] and
    [delete_from_file_content] that writes is an update of a body with
    media type [text/plain]. *)
Theorem writes_are_plain_text args w :
  Forall writesPlainText (calls (callTool P R "update_file_content" args w))
  /\ Forall writesPlainText (calls (callTool P R "append_file_content" args w))
  /\ Forall writesPlainText
       (calls (callTool P R "delete_from_file_content" args w)).
Proof.
  split; [|split].
  - change (callTool P R "update_file_content" args w)
      with (update_file_content P R args w).
    revert w. change (issues writesPlainText (update_file_content P R args)).
    unfold update_file_content. tool_issues resolveFileId_plain.
  - change (callTool P R "append_file_content" args w)
      with (append_file_content P R args w).
    revert w. change (issues writesPlainText (append_file_content P R args)).
    unfold append_file_content. tool_issues resolveFileId_plain.
  - change (callTool P R "delete_from_file_content" args w)
      with (delete_from_file_content P R args w).
    revert w.
    change (issues writesPlainText (delete_from_file_content P R args)).
    unfold delete_from_file_content. tool_issues resolveFileId_plain.
Qed.

End HandlerFacts.

(** ** The handlers on the sample drive *)

Section Samples.

Import Sample.

(** C3 as stated fails: a URI whose remainder is a file name makes the
    read handler look the name up before it reads the file. *)
Lemma readResource_resolves_names :
  let r := readResource platform drive "gdrive:///notes.txt" [notes] in
  calls r = [files_list (Some "name = 'notes.txt'") 5 "files(id, name)" None;
             files_get_json (s_id notes);
             files_get_arraybuffer (s_id notes) None]
  /\ existsb isLookup (calls r) = true.
Proof. vm_compute. split; reflexivity. Qed.

(** C6 as stated fails: removing [ab] from [aabb], where it occurs once
    and is free of syntax characters, leaves [ab], which contains it. *)
Lemma delete_leaves_occurrence :
  let bag : gmap string string :=
    {[ "filename" := "notes.txt"; "targetText" := "ab" ]} in
  let t := callTool platform drive "delete_from_file_content" (Some bag) [notes] in
  isLiteralPattern "ab" = true
  /\ occurrences "ab" (s_body notes) = 1
  /\ calls t = [files_list (Some "name = 'notes.txt'") 5 "files(id, name)" None;
                files_get_arraybuffer (s_id notes) (Some "media");
                files_update (s_id notes) "text/plain" "ab"]
  /\ occurrences "ab" "ab" <> 0.
Proof. vm_compute. repeat split; discriminate. Qed.

(** C9 as stated fails: [delete_file] without its required [fileId]
    reaches the remote, looks up the name [undefined] and deletes the
    file of that name. *)
Lemma delete_file_without_fileId :
  let t := callTool platform drive "delete_file" (Some ∅) [stray; memo] in
  In ("delete_file", ["fileId"]) listTools
  /\ (∅ : gmap string string) !! "fileId" = None
  /\ calls t = [files_list (Some "name = 'undefined'") 5 "files(id, name)" None;
                files_delete (s_id stray)]
  /\ match outcome t with
     | inr result => isError result = false
     | inl _ => False
     end
  /\ after t = [memo].
Proof. vm_compute. repeat split. tauto. Qed.

(** [delete_absent_text] at work: [zz] is not in [aabb]. *)
Lemma delete_absent_text_witness :
  let bag : gmap string string :=
    {[ "filename" := "notes.txt"; "targetText" := "zz" ]} in
  let fetch := files_get_arraybuffer (s_id notes) (Some "media") in
  let t := callTool platform drive "delete_from_file_content" (Some bag) [notes] in
  outcome t = inl (TextNotFound "zz")
  /\ calls t = [files_list (Some "name = 'notes.txt'") 5 "files(id, name)" None;
                fetch]
  /\ Forall (fun c => isWrite c = false) (calls t)
  /\ after t = [notes].
Proof.
  intros bag fetch t.
  apply (delete_absent_text platform drive bag [notes] (s_id notes) "aabb" [notes]);
    vm_compute; reflexivity.
Defined.

(** [delete_literal_text] at work: both [a] of [aabb] are removed. *)
Lemma delete_literal_text_witness :
  let bag : gmap string string :=
    {[ "filename" := "notes.txt"; "targetText" := "a" ]} in
  calls (callTool platform drive "delete_from_file_content" (Some bag) [notes])
  = [files_list (Some "name = 'notes.txt'") 5 "files(id, name)" None;
     files_get_arraybuffer (s_id notes) (Some "media");
     files_update (s_id notes) "text/plain" "bb"]
  /\ String.length "bb" = String.length "aabb" - 2 * String.length "a"
  /\ 1 <= 2 <= occurrences "a" "aabb".
Proof.
  intros bag.
  apply (delete_literal_text platform drive bag [notes] (s_id notes) "aabb" "a"
           [notes]); vm_compute; reflexivity.
Defined.

(** [append_writes_concatenation] at work: [B] appended to [A] writes the
    three characters [A], line feed, [B]. *)
Lemma append_writes_concatenation_witness :
  let bag : gmap string string :=
    {[ "filename" := "memo.txt"; "appendText" := "B" ]} in
  calls (callTool platform drive "append_file_content" (Some bag) [memo])
  = [files_list (Some "name = 'memo.txt'") 5 "files(id, name)" None;
     files_get_arraybuffer (s_id memo) (Some "media");
     files_update (s_id memo) "text/plain" (String "A" (String "010" "B"))].
Proof.
  intros bag.
  apply (append_writes_concatenation platform drive bag [memo] (s_id memo) "A" "B"
           [memo]); vm_compute; reflexivity.
Defined.

(** [search_escapes_lookup_does_not] at work on a text with a quote. *)
Lemma search_escapes_lookup_does_not_witness :
  let bag : gmap string string :=
    {[ "query" := "it's" ]} in
  escapeQuery "it's" = "it" +:+ backslash +:+ "'s"
  /\ calls (callTool platform drive "search" (Some bag) [notes])
     = [files_list (Some ("fullText contains 'it" +:+ backslash +:+ "'s'"))
          10 "files(id, name, mimeType, modifiedTime, size)" None]
  /\ calls (resolveFileId drive "it's" [notes])
     = [files_list (Some "name = 'it's'") 5 "files(id, name)" None].
Proof.
  intros bag.
  apply (search_escapes_lookup_does_not platform drive bag "it's" "it's" [notes]);
    vm_compute; reflexivity.
Defined.

(** [absent_arguments] at work: no bag; a search that has a [content] but
    no [query]; an upload that has a [name] and a [query] but no
    [content]. *)
Lemma absent_arguments_witness :
  let searched : gmap string string := {[ "content" := "x" ]} in
  let uploaded : gmap string string := {[ "name" := "a.txt"; "query" := "x" ]} in
  let stopped : Run drive ToolResult :=
    {| outcome := inl TypeError; after := ([notes] : world drive);
       calls := [] |} in
  callTool platform drive "delete_file" None [notes] = stopped
  /\ callTool platform drive "search" (Some searched) [notes] = stopped
  /\ callTool platform drive "upload_file_with_content" (Some uploaded) [notes]
     = stopped.
Proof.
  intros searched uploaded stopped.
  apply (absent_arguments platform drive "delete_file" searched uploaded [notes]);
    vm_compute; tauto.
Defined.

(** The resolver on an id, on an unknown name and on a name borne twice. *)
Example resolve_id :
  resolveFileId drive (s_id notes) ([] : world drive) =
  {| outcome := inr (s_id notes); after := ([] : world drive); calls := [] |}.
Proof. reflexivity. Qed.

Example resolve_unknown_name :
  outcome (resolveFileId drive "nothing.txt" [notes]) = inl (NotFound "nothing.txt").
Proof. reflexivity. Qed.

Example resolve_twins :
  message <$> (match outcome (resolveFileId drive "notes.txt" [notes; memo; twin])
               with inl e => Some e | inr _ => None end)
  = Some ("여러 개의 파일이 검색되었습니다. 정확한 파일명을 입력하거나 ID를 직접 지정해 주세요."
          +:+ LF +:+ LF
          +:+ "• notes.txt (ID: 1AbCdEfGhIjKlMnOpQrStUvWxYz-0123456789_)" +:+ LF
          +:+ "• notes.txt (ID: 1QwErTyUiOpAsDfGhJkLzXcVbNm-1122334455_)").
Proof. vm_compute. reflexivity. Qed.

(** An absent property is resolved as the name [undefined]. *)
Example undefined_is_a_name : isFileIdShape (ToString None) = false.
Proof. reflexivity. Qed.

(** A listed document is exported as markdown; its URI needs no lookup. *)
Example read_listed_document :
  readResource platform drive (resourceUri (s_id report))
               ([report] : world drive) =
  {| outcome := inr {| c_uri := resourceUri (s_id report);
                       c_mimeType := "text/markdown";
                       c_text := Some "# Report"; c_blob := None |};
     after := ([report] : world drive);
     calls := [files_get_json (s_id report);
               files_export_text (s_id report) "text/markdown"] |}.
Proof. vm_compute. reflexivity. Qed.

(** Appending [B] to a file that holds [A] leaves [A], a newline and [B]. *)
Example append_B_to_A :
  let bag : gmap string string :=
    {[ "filename" := "memo.txt"; "appendText" := "B" ]} in
  map s_body (after (callTool platform drive "append_file_content" (Some bag) [memo]))
  = [String "A" (String "010" "B")].
Proof. vm_compute. reflexivity. Qed.

(** Overlapping occurrences: [aa] occurs twice in [aaa], one match is
    removed. *)
Example remove_overlapping :
  occurrences "aa" "aaa" = 2 /\ countMatches "aa" "aaa" = 1
  /\ replaceAll "aa" "" "aaa" = "a".
Proof. vm_compute. repeat split. Qed.

End Samples.


(** * Further properties of the handlers *)

Section FurtherMonadFacts.

Context {R : Remote}.

Lemma raises_ret {A} Q (a : A) : raises Q (ret R a).
Proof. intros w. exact I. Qed.

Lemma raises_throw {A} (Q : Error -> Prop) e : Q e -> raises Q (@throw R A e).
Proof. intros H w. exact H. Qed.

Lemma raises_call (Q : Error -> Prop) c :
  (forall reason, Q (RemoteFailure reason)) -> raises Q (call R c).
Proof.
  intros H w. unfold call. destruct (serve R c w) as [[reason|r] w']; cbn; auto.
Qed.

Lemma raises_bind {A B} Q (m : M R A) (k : A -> M R B) :
  raises Q m -> (forall a, raises Q (k a)) -> raises Q (bind R m k).
Proof.
  intros Hm Hk w. unfold bind. specialize (Hm w).
  destruct (outcome (m w)) as [e|a]; cbn; [exact Hm | apply Hk].
Qed.

Lemma returns_ret {A} (Q : A -> Prop) (a : A) : Q a -> returns Q (ret R a).
Proof. intros H w. exact H. Qed.

Lemma returns_throw {A} (Q : A -> Prop) e : returns Q (@throw R A e).
Proof. intros w. exact I. Qed.

Lemma returns_bind {A B} (Q : B -> Prop) (m : M R A) (k : A -> M R B) :
  (forall a, returns Q (k a)) -> returns Q (bind R m k).
Proof.
  intros Hk w. unfold bind.
  destruct (outcome (m w)) as [e|a]; cbn; [exact I | apply Hk].
Qed.

Lemma costs_ret {A} (a : A) : costs 0 (ret R a).
Proof. intros w. cbn. lia. Qed.

Lemma costs_throw {A} e : costs 0 (@throw R A e).
Proof. intros w. cbn. lia. Qed.

Lemma costs_call c : costs 1 (call R c).
Proof. intros w. rewrite call_calls. cbn. lia. Qed.

Lemma costs_bind {A B} a b (m : M R A) (k : A -> M R B) :
  costs a m -> (forall x, costs b (k x)) -> costs (a + b) (bind R m k).
Proof.
  intros Hm Hk w. unfold bind. specialize (Hm w).
  destruct (outcome (m w)) as [e|x]; cbn; [lia|].
  rewrite List.length_app. specialize (Hk x (after (m w))). lia.
Qed.

Lemma costs_le {A} a b (m : M R A) : costs a m -> a <= b -> costs b m.
Proof. intros Hm Hle w. specialize (Hm w). lia. Qed.

(** The calls of a sequence start with the calls of its first part. *)
Lemma bind_calls_prefix {A B} (m : M R A) (k : A -> M R B) w :
  exists rest, calls (bind R m k w) = (calls (m w) ++ rest)%list.
Proof.
  unfold bind. destruct (outcome (m w)); cbn; [exists []|eauto].
  now rewrite app_nil_r.
Qed.

End FurtherMonadFacts.

Section FurtherHandlerFacts.

Context (P : Platform) (R : Remote).
Implicit Types (w : world R) (bag : gmap string string)
               (args : option (gmap string string)).

(** Splits a goal on a handler along its structure. *)
Ltac handler_step :=
  lazymatch goal with
  | |- issues _ (bind _ _ _) => apply issues_bind; [|intros ?]
  | |- issues _ (ret _ _) => apply issues_ret
  | |- issues _ (throw _ _) => apply issues_throw
  | |- issues _ (call _ _) => apply issues_call; cbn; try reflexivity
  | |- raises _ (bind _ _ _) => apply raises_bind; [|intros ?]
  | |- raises _ (ret _ _) => apply raises_ret
  | |- raises _ (throw _ _) => apply raises_throw; cbv beta; discriminate
  | |- raises _ (call _ _) => apply raises_call; intros ?; cbv beta; discriminate
  | |- returns _ (bind _ _ _) => apply returns_bind; intros ?
  | |- returns _ (throw _ _) => apply returns_throw
  | |- ?G (match ?x with _ => _ end) => destruct x
  end.

Ltac handler_steps :=
  repeat first
    [ handler_step
    | progress unfold prop, asString, ok, removePattern, resolveFileId,
        readContents ].

Lemma costs_prop args key : costs 0 (prop R args key).
Proof. destruct args; [apply costs_ret | apply costs_throw]. Qed.

Lemma costs_asString v : costs 0 (asString R v).
Proof. destruct v; [apply costs_ret | apply costs_throw]. Qed.

Lemma costs_ok text : costs 0 (ok R text).
Proof. apply costs_ret. Qed.

Lemma costs_removePattern target s : costs 0 (removePattern P R target s).
Proof.
  unfold removePattern. destruct (isLiteralPattern _); [apply costs_ret|].
  destruct (regexp_remove P _ s); [apply costs_ret | apply costs_throw].
Qed.

Lemma costs_resolveFileId nameOrId : costs 1 (resolveFileId R nameOrId).
Proof.
  unfold resolveFileId. destruct (isFileIdShape nameOrId).
  - eapply costs_le; [apply costs_ret | lia].
  - apply (costs_bind 1 0); [apply costs_call|]. intros searchRes.
    destruct (default [] (files searchRes)) as [|f [|g fs]];
      first [apply costs_ret | apply costs_throw].
Qed.

Lemma costs_bind_within {A B} a n (m : M R A) (k : A -> M R B) :
  costs a m -> a <= n -> (forall x, costs (n - a) (k x)) -> costs n (bind R m k).
Proof.
  intros Hm Hle Hk. eapply costs_le; [apply (costs_bind a (n - a)); eauto | lia].
Qed.

Ltac costs_head :=
  first [ apply costs_prop | apply costs_asString | apply costs_resolveFileId
        | apply costs_removePattern | apply costs_call | apply costs_ok
        | apply costs_ret | apply costs_throw ].

Ltac costs_step :=
  lazymatch goal with
  | |- costs ?n (bind _ ?m _) =>
      first [ apply (costs_bind_within 0 n m);
                [costs_head | lia | intros ?; cbn [Nat.sub]]
            | apply (costs_bind_within 1 n m);
                [costs_head | lia | intros ?; cbn [Nat.sub]] ]
  | |- costs _ (if ?b then _ else _) => destruct b
  | |- costs _ _ => eapply costs_le; [costs_head | lia]
  end.

Lemma costs_readContents uri fileId mimeType :
  costs 1 (readContents P R uri fileId mimeType).
Proof. unfold readContents. repeat costs_step. Qed.

Lemma costs_callTool name args : costs 3 (callTool P R name args).
Proof.
  unfold callTool.
  repeat (match goal with |- costs _ (if ?b then _ else _) => destruct b end);
    [unfold search | unfold upload_file_with_content
    | unfold update_file_content | unfold delete_file
    | unfold read_file_content | unfold append_file_content
    | unfold delete_from_file_content | ];
    cbv zeta; repeat costs_step.
Qed.

(** X6.  No request costs more than three remote calls: the resolver at
    most one, a tool and a read at most three, a listing exactly one. *)
Theorem round_trips_bounded (name nameOrId uri : string) args cursor w :
  List.length (calls (resolveFileId R nameOrId w)) <= 1
  /\ List.length (calls (callTool P R name args w)) <= 3
  /\ List.length (calls (readResource P R uri w)) <= 3
  /\ List.length (calls (listResources R cursor w)) = 1.
Proof.
  split; [apply costs_resolveFileId|]. split; [apply costs_callTool|]. split.
  - revert w. change (costs 3 (readResource P R uri)). unfold readResource.
    apply (costs_bind_within 1 3); [apply costs_resolveFileId | lia|].
    intros fileId. apply (costs_bind_within 1 2); [apply costs_call | lia|].
    intros fileRes. apply costs_readContents.
  - unfold listResources, bind. rewrite call_calls.
    now destruct (outcome (call R _ w)).
Qed.

Lemma callTool_unlisted name args w :
  ~ In name (map fst listTools) ->
  callTool P R name args w =
  {| outcome := inl ToolNotFound; after := w; calls := [] |}.
Proof.
  intros Hout. unfold callTool.
  repeat (match goal with
          | |- context [String.eqb name ?s] =>
              destruct (String.eqb_spec name s) as [->|_];
                [exfalso; apply Hout; cbn; tauto|]
          end).
  reflexivity.
Qed.

Lemma callTool_listed_raises name args :
  In name (map fst listTools) ->
  raises (fun e => e <> ToolNotFound) (callTool P R name args).
Proof.
  cbn. intros [<-|[<-|[<-|[<-|[<-|[<-|[<-|[]]]]]]]].
  - change (raises (fun e => e <> ToolNotFound) (search R args)).
    unfold search. handler_steps.
  - change (raises (fun e => e <> ToolNotFound) (upload_file_with_content P R args)).
    unfold upload_file_with_content. handler_steps.
  - change (raises (fun e => e <> ToolNotFound) (update_file_content P R args)).
    unfold update_file_content. handler_steps.
  - change (raises (fun e => e <> ToolNotFound) (delete_file R args)).
    unfold delete_file. handler_steps.
  - change (raises (fun e => e <> ToolNotFound) (read_file_content P R args)).
    unfold read_file_content. handler_steps.
  - change (raises (fun e => e <> ToolNotFound) (append_file_content P R args)).
    unfold append_file_content. handler_steps.
  - change (raises (fun e => e <> ToolNotFound)
              (delete_from_file_content P R args)).
    unfold delete_from_file_content. handler_steps.
Qed.

(** X1.  The dispatcher and the tool list agree: an invocation fails
    [ToolNotFound] exactly when its name is not one of the listed tools,
    and then no remote call is issued and the remote is untouched. *)
Theorem dispatch_agrees_with_listing (name : string) args w :
  (outcome (callTool P R name args w) = inl ToolNotFound
   <-> ~ In name (map fst listTools))
  /\ (outcome (callTool P R name args w) = inl ToolNotFound ->
      calls (callTool P R name args w) = [] /\ after (callTool P R name args w) = w).
Proof.
  assert (outcome (callTool P R name args w) = inl ToolNotFound
          <-> ~ In name (map fst listTools)) as Hiff.
  { split.
    - intros Hfail Hin. pose proof (callTool_listed_raises name args Hin w) as Hr.
      rewrite Hfail in Hr. now apply Hr.
    - intros Hout. now rewrite callTool_unlisted. }
  split; [exact Hiff|]. intros Hfail. apply Hiff in Hfail.
  now rewrite callTool_unlisted.
Qed.

Lemma readResource_issues Q uri :
  (forall c, isLookup c = true -> Q c) ->
  (forall fileId, Q (files_get_json fileId)) ->
  (forall fileId mimeType, Q (files_export_text fileId mimeType)) ->
  (forall fileId, Q (files_get_arraybuffer fileId None)) ->
  issues Q (readResource P R uri).
Proof.
  intros Hlist Hjson Hexport Hraw. unfold readResource.
  apply issues_bind.
  { eapply issues_weaken; [|apply resolveFileId_lookups]. exact Hlist. }
  intros fileId. apply issues_bind; [now apply issues_call|].
  intros fileRes. unfold readContents.
  repeat first [ apply issues_bind; [|intros ?] | apply issues_ret
               | now apply issues_call
               | match goal with |- issues _ (if ?b then _ else _) => destruct b end ].
Qed.

(** X5.  The handlers that read never write: a listing, a resource read,
    a search and [read_file_content] issue no create, update or delete,
    whatever their arguments and whatever the remote answers. *)
Theorem readers_never_write (uri : string) cursor args w :
  Forall (fun c => isWrite c = false) (calls (listResources R cursor w))
  /\ Forall (fun c => isWrite c = false) (calls (readResource P R uri w))
  /\ Forall (fun c => isWrite c = false) (calls (callTool P R "search" args w))
  /\ Forall (fun c => isWrite c = false)
       (calls (callTool P R "read_file_content" args w)).
Proof.
  split; [|split; [|split]].
  - revert w. change (issues (fun c => isWrite c = false) (listResources R cursor)).
    unfold listResources. handler_steps.
  - apply readResource_issues; try reflexivity. now intros [].
  - change (callTool P R "search" args w) with (search R args w).
    revert w. change (issues (fun c => isWrite c = false) (search R args)).
    unfold search. handler_steps.
  - change (callTool P R "read_file_content" args w)
      with (read_file_content P R args w).
    revert w.
    change (issues (fun c => isWrite c = false) (read_file_content P R args)).
    unfold read_file_content.
    apply issues_bind; [handler_steps|]. intros filename.
    apply issues_bind; [apply resolveFileId_reads|]. intros fileId.
    handler_steps.
Qed.

(** X15.  A resource read fetches the raw bytes without [alt: "media"];
    [read_file_content], [append_file_content] and
    [delete_from_file_content] always fetch with it. *)
Theorem raw_fetch_alt (uri : string) args w :
  Forall (fetchesWith None) (calls (readResource P R uri w))
  /\ Forall (fetchesWith (Some "media"))
       (calls (callTool P R "read_file_content" args w))
  /\ Forall (fetchesWith (Some "media"))
       (calls (callTool P R "append_file_content" args w))
  /\ Forall (fetchesWith (Some "media"))
       (calls (callTool P R "delete_from_file_content" args w)).
Proof.
  assert (forall alt nameOrId, issues (fetchesWith alt) (resolveFileId R nameOrId))
    as Hresolve.
  { intros alt nameOrId. eapply issues_weaken; [|apply resolveFileId_lookups].
    now intros []. }
  split; [|split; [|split]].
  - apply readResource_issues; try easy. now intros [].
  - change (callTool P R "read_file_content" args w)
      with (read_file_content P R args w).
    revert w. change (issues (fetchesWith (Some "media")) (read_file_content P R args)).
    unfold read_file_content.
    apply issues_bind; [handler_steps|]. intros filename.
    apply issues_bind; [apply Hresolve|]. intros fileId. handler_steps.
  - change (callTool P R "append_file_content" args w)
      with (append_file_content P R args w).
    revert w.
    change (issues (fetchesWith (Some "media")) (append_file_content P R args)).
    unfold append_file_content.
    apply issues_bind; [handler_steps|]. intros filename.
    apply issues_bind; [apply Hresolve|]. intros fileId. handler_steps.
  - change (callTool P R "delete_from_file_content" args w)
      with (delete_from_file_content P R args w).
    revert w.
    change (issues (fetchesWith (Some "media"))
              (delete_from_file_content P R args)).
    unfold delete_from_file_content.
    apply issues_bind; [handler_steps|]. intros filename.
    apply issues_bind; [apply Hresolve|]. intros fileId. handler_steps.
Qed.

(** X3.  A resource read that succeeds answers for the URI it was asked
    for, and with exactly one of [text] and [blob]. *)
Theorem readResource_text_or_blob (uri : string) w (c : Contents) :
  outcome (readResource P R uri w) = inr c ->
  c_uri c = uri
  /\ (is_Some (c_text c) /\ c_blob c = None
      \/ c_text c = None /\ is_Some (c_blob c)).
Proof.
  intros Hc.
  assert (returns (fun c => c_uri c = uri
                            /\ (is_Some (c_text c) /\ c_blob c = None
                                \/ c_text c = None /\ is_Some (c_blob c)))
            (readResource P R uri)) as Hr.
  { unfold readResource, readContents.
    repeat first
      [ apply returns_bind; intros ?
      | apply returns_ret; cbn; eauto
      | match goal with |- returns _ (if ?b then _ else _) => destruct b end ]. }
  specialize (Hr w). now rewrite Hc in Hr.
Qed.

(** X4.  A file whose metadata carries no mime type, or an empty one, is
    read as [application/octet-stream]: fetched raw and answered as a
    base64 blob. *)
Theorem readResource_without_mimeType (uri : string) w fileId meta w1 bytes w2 :
  let r := resolveFileId R (parseUri uri) w in
  outcome r = inr fileId ->
  serve R (files_get_json fileId) (after r) = (inr meta, w1) ->
  meta = None \/ meta = Some "" ->
  serve R (files_get_arraybuffer fileId None) w1 = (inr bytes, w2) ->
  readResource P R uri w =
  {| outcome := inr {| c_uri := uri; c_mimeType := "application/octet-stream";
                       c_text := None;
                       c_blob := Some (toString_base64 P bytes) |};
     after := w2;
     calls := (calls r ++ [files_get_json fileId;
                           files_get_arraybuffer fileId None])%list |}.
Proof.
  intros r Hr Hmeta Hempty Hraw. unfold readResource.
  rewrite (bind_returns _ _ _ _ Hr). fold r.
  rewrite (bind_call_returns _ _ _ _ _ Hmeta).
  assert (orElse meta "application/octet-stream" = "application/octet-stream")
    as -> by now destruct Hempty as [->| ->].
  unfold readContents.
  change (startsWith "application/octet-stream" "application/vnd.google-apps")
    with false.
  cbv iota. rewrite (bind_call_returns _ _ _ _ _ Hraw). reflexivity.
Qed.

(** X2.  A listing is one call without a query and with page size 10; an
    absent or empty cursor asks for the first page, any other cursor is
    passed on as it is.  When the call answers, the listing has one
    resource per file, in order; parsing its URIs gives back the provider's
    ids; a missing [files] field is an empty listing; the next cursor is the
    provider's page token. *)
Theorem listResources_page cursor w :
  let pageToken := match cursor with
                   | Some "" => None
                   | _ => cursor
                   end in
  let listing := files_list None 10 "nextPageToken, files(id, name, mimeType)"
                            pageToken in
  calls (listResources R cursor w) = [listing]
  /\ match serve R listing w with
     | (inl reason, _) =>
         outcome (listResources R cursor w) = inl (RemoteFailure reason)
     | (inr found, _) =>
         exists resources,
           outcome (listResources R cursor w) = inr (resources, nextPageToken found)
           /\ map (fun res => parseUri (res_uri res)) resources
              = map file_id (default [] (files found))
           /\ map res_name resources = map file_name (default [] (files found))
           /\ map res_mimeType resources
              = map file_mimeType (default [] (files found))
     end.
Proof.
  intros pageToken listing.
  assert (match cursor with
          | Some (String _ _ as c) => Some c
          | _ => None
          end = pageToken) as Htoken by now destruct cursor as [[|? ?]|].
  unfold listResources. rewrite Htoken. fold listing. unfold bind, call.
  destruct (serve R listing w) as [[reason|found] w']; cbn [outcome calls after ret];
    [easy|].
  split; [reflexivity|]. eexists. split; [reflexivity|].
  rewrite !map_map. cbn [res_uri res_name res_mimeType]. repeat split.
  apply map_ext. intros file. unfold parseUri, resourceUri.
  apply replaceFirst_front.
Qed.

Lemma replaceAll_empty_pattern s : replaceAll "" "" s = s.
Proof.
  unfold replaceAll. induction s as [|c s IH]; [reflexivity|].
  cbn [replaceAll_go String.prefix]. cbn. now rewrite IH.
Qed.

(** X7.  An error of the Identifier Resolver ends the tool.  When the
    resolution of the bag's [fileId] fails, [update_file_content] and
    [delete_file] fail with the resolver's error and issue no call beyond
    the resolver's own; when the resolution of the bag's [filename] fails,
    so do [read_file_content], [append_file_content] and
    [delete_from_file_content].  Each holds whatever the other key is. *)
Theorem resolver_failure_ends_tool bag w :
  let byId := resolveFileId R (ToString (bag !! "fileId")) w in
  let byName := resolveFileId R (ToString (bag !! "filename")) w in
  let failed (r : Run R string) e : Run R ToolResult :=
    {| outcome := inl e; after := after r; calls := calls r |} in
  (forall e, outcome byId = inl e ->
     callTool P R "update_file_content" (Some bag) w = failed byId e
     /\ callTool P R "delete_file" (Some bag) w = failed byId e)
  /\ (forall e, outcome byName = inl e ->
       callTool P R "read_file_content" (Some bag) w = failed byName e
       /\ callTool P R "append_file_content" (Some bag) w = failed byName e
       /\ callTool P R "delete_from_file_content" (Some bag) w = failed byName e).
Proof.
  intros byId byName failed. split.
  - intros e Hid. split.
    + change (callTool P R "update_file_content" (Some bag) w)
        with (update_file_content P R (Some bag) w).
      unfold update_file_content, prop. rewrite bind_ret.
      now rewrite (bind_throws _ _ _ _ Hid).
    + change (callTool P R "delete_file" (Some bag) w)
        with (delete_file R (Some bag) w).
      unfold delete_file, prop. rewrite bind_ret.
      now rewrite (bind_throws _ _ _ _ Hid).
  - intros e Hname. repeat split.
    + change (callTool P R "read_file_content" (Some bag) w)
        with (read_file_content P R (Some bag) w).
      unfold read_file_content, prop. rewrite bind_ret.
      now rewrite (bind_throws _ _ _ _ Hname).
    + change (callTool P R "append_file_content" (Some bag) w)
        with (append_file_content P R (Some bag) w).
      unfold append_file_content, prop. rewrite bind_ret.
      now rewrite (bind_throws _ _ _ _ Hname).
    + change (callTool P R "delete_from_file_content" (Some bag) w)
        with (delete_from_file_content P R (Some bag) w).
      unfold delete_from_file_content, prop. rewrite bind_ret.
      now rewrite (bind_throws _ _ _ _ Hname).
Qed.

(** X8.  [delete_file] trusts an argument of the opaque-id shape: it
    issues the delete for that very text and nothing else, without looking
    the file up first; the tool succeeds when the delete does and fails
    with the remote's rejection otherwise. *)
Theorem delete_file_by_id bag w (fileId : string) :
  bag !! "fileId" = Some fileId ->
  isFileIdShape fileId = true ->
  let t := callTool P R "delete_file" (Some bag) w in
  calls t = [files_delete fileId]
  /\ match serve R (files_delete fileId) w with
     | (inr _, w') =>
         outcome t = inr {| text := "파일 삭제 완료: " +:+ fileId; isError := false |}
         /\ after t = w'
     | (inl reason, w') => outcome t = inl (RemoteFailure reason) /\ after t = w'
     end.
Proof.
  intros Hbag Hshape t.
  assert (t = bind R (call R (files_delete fileId))
                (fun _ => ok R ("파일 삭제 완료: " +:+ fileId)) w) as ->.
  { subst t.
    change (callTool P R "delete_file" (Some bag) w)
      with (delete_file R (Some bag) w).
    unfold delete_file, prop. rewrite bind_ret, Hbag. cbn [ToString].
    unfold bind at 1. rewrite (resolveFileId_shape R _ w Hshape).
    cbn [outcome calls after app]. symmetry. apply run_eta. }
  unfold bind, call.
  destruct (serve R (files_delete fileId) w) as [[reason|[]] w']; now cbn.
Qed.

(** X9.  [update_file_content] without [newContent] writes nothing: once
    the resolver has found the file the tool fails with a TypeError, and
    its calls are the resolver's. *)
Theorem update_without_newContent bag w (fileId : string) :
  let r := resolveFileId R (ToString (bag !! "fileId")) w in
  bag !! "newContent" = None ->
  outcome r = inr fileId ->
  callTool P R "update_file_content" (Some bag) w =
  {| outcome := inl TypeError; after := after r; calls := calls r |}.
Proof.
  intros r Hbag Hr.
  change (callTool P R "update_file_content" (Some bag) w)
    with (update_file_content P R (Some bag) w).
  unfold update_file_content, prop. rewrite bind_ret.
  rewrite (bind_returns _ _ _ _ Hr). fold r. rewrite bind_ret, Hbag.
  unfold asString, bind, throw. cbn. now rewrite app_nil_r.
Qed.

(** X10.  [delete_from_file_content] with an empty [targetText], or with
    none when the file's text contains the word [undefined], finds its
    target and rewrites the file with its text as it was. *)
Theorem delete_nothing_rewrites bag w (fileId data : string) w' :
  let r := resolveFileId R (ToString (bag !! "filename")) w in
  let fetch := files_get_arraybuffer fileId (Some "media") in
  let content := toString_utf8 P data in
  default "" (bag !! "targetText") = "" ->
  includes content (ToString (bag !! "targetText")) = true ->
  outcome r = inr fileId ->
  serve R fetch (after r) = (inr data, w') ->
  calls (callTool P R "delete_from_file_content" (Some bag) w)
  = (calls r ++ [fetch; files_update fileId "text/plain" (Buffer_from P content)])%list.
Proof.
  intros r fetch content Hempty Hfound Hr Hfetch.
  change (callTool P R "delete_from_file_content" (Some bag) w)
    with (delete_from_file_content P R (Some bag) w).
  unfold delete_from_file_content, prop. rewrite bind_ret.
  rewrite (bind_returns _ _ _ _ Hr). fold r.
  rewrite (bind_call_returns _ _ _ _ _ Hfetch), bind_ret.
  fold content. rewrite Hfound. cbn [negb]. unfold removePattern.
  rewrite Hempty. cbn [isLiteralPattern JsString.forallb].
  rewrite bind_ret, replaceAll_empty_pattern. unfold bind.
  rewrite call_calls. cbn [calls].
  destruct (outcome (call R _ w')); cbn [calls]; now rewrite ?app_nil_r.
Qed.

(** X11.  A [targetText] with a syntax character is handed to the pattern
    engine: when the pattern does not compile the tool fails with a
    SyntaxError after the fetch and writes nothing; when it does, the text
    the engine returns is the body written. *)
Theorem delete_pattern_text bag w (fileId data target : string) w' :
  let r := resolveFileId R (ToString (bag !! "filename")) w in
  let fetch := files_get_arraybuffer fileId (Some "media") in
  let content := toString_utf8 P data in
  let t := callTool P R "delete_from_file_content" (Some bag) w in
  bag !! "targetText" = Some target ->
  isLiteralPattern target = false ->
  includes content target = true ->
  outcome r = inr fileId ->
  serve R fetch (after r) = (inr data, w') ->
  match regexp_remove P target content with
  | None =>
      t = {| outcome := inl SyntaxError; after := w';
             calls := (calls r ++ [fetch])%list |}
  | Some updated =>
      calls t = (calls r ++ [fetch; files_update fileId "text/plain"
                                      (Buffer_from P updated)])%list
  end.
Proof.
  intros r fetch content t Hbag Hpattern Hfound Hr Hfetch. subst t.
  change (callTool P R "delete_from_file_content" (Some bag) w)
    with (delete_from_file_content P R (Some bag) w).
  unfold delete_from_file_content, prop. rewrite bind_ret.
  rewrite (bind_returns _ _ _ _ Hr). fold r.
  rewrite (bind_call_returns _ _ _ _ _ Hfetch), bind_ret.
  rewrite Hbag. cbn [ToString]. fold content. rewrite Hfound. cbn [negb].
  unfold removePattern. change (default "" (Some target)) with target.
  rewrite Hpattern.
  destruct (regexp_remove P target content) as [updated|].
  - rewrite bind_ret. unfold bind. rewrite call_calls. cbn [calls].
    destruct (outcome (call R _ w')); cbn [calls]; now rewrite ?app_nil_r.
  - unfold bind, throw. cbn [outcome after calls]. now rewrite ?app_nil_r.
Qed.

(** X14.  [upload_file_with_content] with a [content] issues exactly one
    call, the create: it never looks for a file of that name.  The mime
    type, sent as the file's and as the media's, is never empty, and is
    [application/octet-stream] when the table does not know the name. *)
Theorem upload_creates_once bag w (content : string) :
  bag !! "content" = Some content ->
  let mimeType := guessMimeType P (bag !! "name") in
  calls (callTool P R "upload_file_with_content" (Some bag) w)
  = [files_create (bag !! "name") mimeType mimeType (Buffer_from P content)]
  /\ mimeType <> ""
  /\ (mime_lookup P (bag !! "name") = None ->
      mimeType = "application/octet-stream").
Proof.
  intros Hbag mimeType. split; [|split].
  - change (callTool P R "upload_file_with_content" (Some bag) w)
      with (upload_file_with_content P R (Some bag) w).
    unfold upload_file_with_content, prop. rewrite !bind_ret, Hbag.
    unfold asString. rewrite bind_ret. fold mimeType. unfold bind.
    rewrite call_calls.
    destruct (outcome (call R _ w)); cbn [calls]; now rewrite ?app_nil_r.
  - subst mimeType. unfold guessMimeType, orElse.
    now destruct (mime_lookup P (bag !! "name")) as [[|]|].
  - subst mimeType. unfold guessMimeType. now intros ->.
Qed.

(** X16.  A tool invoked with a bag that lacks the key it resolves looks
    up the name [undefined]: without [fileId], the first call of
    [update_file_content] and of [delete_file] is the lookup
    [name = 'undefined']; without [filename], so is the first call of
    [read_file_content], [append_file_content] and
    [delete_from_file_content].  Each holds whatever else the bag holds. *)
Theorem absent_id_is_looked_up (byId byName : gmap string string) w :
  byId !! "fileId" = None ->
  byName !! "filename" = None ->
  let lookup := files_list (Some "name = 'undefined'") 5 "files(id, name)" None in
  (exists rest,
     calls (callTool P R "update_file_content" (Some byId) w) = lookup :: rest)
  /\ (exists rest, calls (callTool P R "delete_file" (Some byId) w) = lookup :: rest)
  /\ (exists rest,
        calls (callTool P R "read_file_content" (Some byName) w) = lookup :: rest)
  /\ (exists rest,
        calls (callTool P R "append_file_content" (Some byName) w) = lookup :: rest)
  /\ (exists rest,
        calls (callTool P R "delete_from_file_content" (Some byName) w)
        = lookup :: rest).
Proof.
  intros Hid Hname lookup.
  assert (forall {B} (k : string -> M R B),
             exists rest,
               calls (bind R (resolveFileId R "undefined") k w) = lookup :: rest)
    as Hfirst.
  { intros B k. destruct (bind_calls_prefix (resolveFileId R "undefined") k w)
      as [rest ->].
    rewrite (resolveFileId_other_calls R "undefined" w eq_refl). now exists rest. }
  repeat split.
  - change (callTool P R "update_file_content" (Some byId) w)
      with (update_file_content P R (Some byId) w).
    unfold update_file_content, prop. rewrite bind_ret, Hid. apply Hfirst.
  - change (callTool P R "delete_file" (Some byId) w)
      with (delete_file R (Some byId) w).
    unfold delete_file, prop. rewrite bind_ret, Hid. apply Hfirst.
  - change (callTool P R "read_file_content" (Some byName) w)
      with (read_file_content P R (Some byName) w).
    unfold read_file_content, prop. rewrite bind_ret, Hname. apply Hfirst.
  - change (callTool P R "append_file_content" (Some byName) w)
      with (append_file_content P R (Some byName) w).
    unfold append_file_content, prop. rewrite bind_ret, Hname. apply Hfirst.
  - change (callTool P R "delete_from_file_content" (Some byName) w)
      with (delete_from_file_content P R (Some byName) w).
    unfold delete_from_file_content, prop. rewrite bind_ret, Hname. apply Hfirst.
Qed.

End FurtherHandlerFacts.

(** ** Texts built by the handlers *)

Lemma unescape_backslash d s :
  unescape (String "092" (String d s)) = String d (unescape s).
Proof. reflexivity. Qed.

Lemma unescape_other c s :
  (N_of_ascii c =? 92)%N = false -> unescape (String c s) = String c (unescape s).
Proof. intros H. cbn [unescape]. now rewrite H. Qed.

Lemma unescape_escapeEach query : unescape (escapeEach query) = query.
Proof.
  unfold escapeEach. induction query as [|c query IH]; [reflexivity|].
  cbn [flatMap].
  destruct (N.eqb_spec (N_of_ascii c) 92) as [E|Hb].
  { assert (c = "092"%char) as ->
      by (rewrite <- (ascii_N_embedding c), E; reflexivity).
    change (escapeChar "092" +:+ flatMap escapeChar query)
      with (String "092" (String "092" (flatMap escapeChar query))).
    now rewrite unescape_backslash, IH. }
  destruct (N.eqb_spec (N_of_ascii c) 39) as [E|Hq].
  { assert (c = "039"%char) as ->
      by (rewrite <- (ascii_N_embedding c), E; reflexivity).
    change (escapeChar "039" +:+ flatMap escapeChar query)
      with (String "092" (String "039" (flatMap escapeChar query))).
    now rewrite unescape_backslash, IH. }
  apply N.eqb_neq in Hb, Hq.
  assert (escapeChar c = String c "") as ->
    by (unfold escapeChar; now rewrite Hb, Hq).
  change (String c "" +:+ flatMap escapeChar query)
    with (String c (flatMap escapeChar query)).
  now rewrite (unescape_other _ _ Hb), IH.
Qed.

(** X12.  The escaping of the search tool loses nothing: reading the
    escapes back recovers the query, so two queries are escaped to the same
    text only when they are the same query. *)
Theorem escapeQuery_reversible (query : string) :
  unescape (escapeQuery query) = query
  /\ forall other, escapeQuery query = escapeQuery other -> query = other.
Proof.
  assert (forall q, unescape (escapeQuery q) = q) as Hback.
  { intros q. rewrite escapeQuery_escapeEach. apply unescape_escapeEach. }
  split; [apply Hback|].
  intros other Heq. rewrite <- (Hback query), Heq. apply Hback.
Qed.

(** X13.  The messages of [NotFound] and [TextNotFound] quote the text
    that was looked for. *)
Theorem messages_quote_input (nameOrId targetText : string) :
  includes (message (NotFound nameOrId)) nameOrId = true
  /\ includes (message (TextNotFound targetText)) targetText = true.
Proof. split; apply includes_app. Qed.

(** ** Start-up *)

Section StartupFacts.

Context (H : Host).
Implicit Types (env : gmap string string) (disk : filesystem H)
               (argv : list string).

Lemma main_auth argv env disk :
  argv !! 2 = Some "auth" ->
  main H argv env disk = authenticateAndSaveCredentials H env disk.
Proof. unfold main. now intros ->. Qed.

Lemma main_serve argv env disk :
  argv !! 2 <> Some "auth" ->
  main H argv env disk = loadCredentialsAndRunServer H env disk.
Proof.
  unfold main. intros Hmode. destruct (argv !! 2) as [arg|]; [|reflexivity].
  destruct (String.eqb_spec arg "auth") as [->|_]; [now destruct Hmode | reflexivity].
Qed.

Lemma mode_cases argv : argv !! 2 = Some "auth" \/ argv !! 2 <> Some "auth".
Proof.
  destruct (argv !! 2) as [arg|]; [|now right].
  destruct (String.eqb_spec arg "auth") as [->|Hne]; [now left | right; congruence].
Qed.

Lemma auth_events env disk :
  Forall (fun e => match e with
                   | console_log _ | console_error_caught | wrote _ _ => True
                   | _ => False
                   end)
         (fst (authenticateAndSaveCredentials H env disk)).
Proof.
  unfold authenticateAndSaveCredentials.
  destruct (authenticate H _ _) as [auth|]; [|now repeat constructor].
  destruct (fs_writeFileSync H _ _ disk); now repeat constructor.
Qed.


(** X17.  The server is connected only in the normal mode, only when the
    credentials file exists, can be read and parses, and only after those
    credentials are installed; nothing else happens in that start. *)
Theorem connects_only_with_credentials argv env disk :
  In connected (fst (main H argv env disk)) ->
  argv !! 2 <> Some "auth"
  /\ exists text creds,
       fs_existsSync H (credentialsPath H env) disk = true
       /\ fs_readFileSync H (credentialsPath H env) disk = Some text
       /\ JSON_parse H text = Some creds
       /\ main H argv env disk = ([google_options creds; connected], disk).
Proof.
  intros Hin. destruct (mode_cases argv) as [Hmode|Hmode].
  - exfalso. rewrite (main_auth _ _ _ Hmode) in Hin.
    pose proof (auth_events env disk) as Hev.
    rewrite List.Forall_forall in Hev. exact (Hev _ Hin).
  - split; [exact Hmode|]. rewrite (main_serve _ _ _ Hmode) in *.
    unfold loadCredentialsAndRunServer in *.
    destruct (fs_existsSync H _ disk); cbn [negb] in *;
      [|cbn in Hin; intuition discriminate].
    destruct (fs_readFileSync H _ disk) as [text|];
      [|cbn in Hin; intuition discriminate].
    destruct (JSON_parse H text) as [creds|] eqn:Hparse;
      [|cbn in Hin; intuition discriminate].
    destruct (server_connect H); [|cbn in Hin; intuition discriminate].
    exists text, creds. auto.
Qed.

(** X18.  The process exits, with code 1, exactly when it is started in
    the normal mode and the credentials file does not exist; such a start
    consists of the error line and the exit: nothing is read, nothing is
    connected and the disk is left as it was. *)
Theorem exits_without_credentials argv env disk (code : nat) :
  (In (process_exit code) (fst (main H argv env disk))
   <-> code = 1
       /\ argv !! 2 <> Some "auth"
       /\ fs_existsSync H (credentialsPath H env) disk = false)
  /\ (argv !! 2 <> Some "auth" ->
      fs_existsSync H (credentialsPath H env) disk = false ->
      main H argv env disk
      = ([console_error
            "Credentials not found. Please run with 'auth' argument first.";
          process_exit 1], disk)).
Proof.
  assert (argv !! 2 <> Some "auth" ->
          fs_existsSync H (credentialsPath H env) disk = false ->
          main H argv env disk
          = ([console_error
                "Credentials not found. Please run with 'auth' argument first.";
              process_exit 1], disk)) as Hexit.
  { intros Hmode Hmissing. rewrite (main_serve _ _ _ Hmode).
    unfold loadCredentialsAndRunServer. now rewrite Hmissing. }
  split; [|exact Hexit]. split.
  - intros Hin. destruct (mode_cases argv) as [Hmode|Hmode].
    + exfalso. rewrite (main_auth _ _ _ Hmode) in Hin.
      pose proof (auth_events env disk) as Hev.
      rewrite List.Forall_forall in Hev. exact (Hev _ Hin).
    + rewrite (main_serve _ _ _ Hmode) in *.
      unfold loadCredentialsAndRunServer in *.
      destruct (fs_existsSync H _ disk); cbn [negb] in *.
      * exfalso.
        destruct (fs_readFileSync H _ disk) as [text|];
          [|cbn in Hin; intuition discriminate].
        destruct (JSON_parse H text) as [creds|];
          [|cbn in Hin; intuition discriminate].
        destruct (server_connect H); cbn in Hin; intuition discriminate.
      * cbn in Hin. destruct Hin as [Hin|[Hin|[]]]; [discriminate|].
        injection Hin as <-. auto.
  - intros (-> & Hmode & Hmissing). rewrite (Hexit Hmode Hmissing). cbn. auto.
Qed.


(** X20.  The server reads its credentials where the authorization wrote
    them.  On a disk that gives back what is written to it, and with a JSON
    reader that inverts the writer on these credentials, a start in the
    [auth] mode whose authorization and write succeed leaves a disk on
    which a start in the normal mode, with the same environment, installs
    those very credentials and connects. *)
Theorem auth_then_serve argv argv' env disk (auth : credentials H) :
  argv !! 2 = Some "auth" ->
  argv' !! 2 <> Some "auth" ->
  authenticate H (keyfilePath H env) ["https://www.googleapis.com/auth/drive"]
  = Some auth ->
  is_Some (fs_writeFileSync H (credentialsPath H env) (JSON_stringify H auth) disk) ->
  (forall path content d d',
      fs_writeFileSync H path content d = Some d' ->
      fs_existsSync H path d' = true /\ fs_readFileSync H path d' = Some content) ->
  JSON_parse H (JSON_stringify H auth) = Some auth ->
  server_connect H = Some tt ->
  let disk' := snd (main H argv env disk) in
  main H argv' env disk' = ([google_options auth; connected], disk').
Proof.
  intros Hmode Hmode' Hauth [written Hwrite] Hdisk Hparse Hconnect disk'.
  assert (disk' = written) as ->.
  { subst disk'. rewrite (main_auth _ _ _ Hmode).
    unfold authenticateAndSaveCredentials. now rewrite Hauth, Hwrite. }
  destruct (Hdisk _ _ _ _ Hwrite) as [Hexists Hread].
  rewrite (main_serve _ _ _ Hmode'). unfold loadCredentialsAndRunServer.
  now rewrite Hexists, Hread, Hparse, Hconnect.
Qed.

End StartupFacts.

(** ** The further properties on the sample drive and host *)

Section FurtherSamples.

Import Sample MoreSamples.

(** [readResource_text_or_blob] at work on a text file. *)
Lemma readResource_text_or_blob_witness :
  let c := {| c_uri := resourceUri (s_id notes); c_mimeType := "text/plain";
              c_text := Some "aabb"; c_blob := None |} in
  c_uri c = resourceUri (s_id notes)
  /\ (is_Some (c_text c) /\ c_blob c = None
      \/ c_text c = None /\ is_Some (c_blob c)).
Proof.
  intros c.
  apply (readResource_text_or_blob platform drive (resourceUri (s_id notes))
           ([notes] : world drive) c).
  vm_compute. reflexivity.
Defined.

(** [readResource_without_mimeType] at work: the bytes [Man] in base64. *)
Lemma readResource_without_mimeType_witness :
  readResource platform drive (resourceUri (s_id untyped)) ([untyped] : world drive)
  = {| outcome := inr {| c_uri := resourceUri (s_id untyped);
                         c_mimeType := "application/octet-stream";
                         c_text := None; c_blob := Some "TWFu" |};
       after := ([untyped] : world drive);
       calls := [files_get_json (s_id untyped);
                 files_get_arraybuffer (s_id untyped) None] |}.
Proof.
  apply (readResource_without_mimeType platform drive
           (resourceUri (s_id untyped)) ([untyped] : world drive)
           (s_id untyped) (Some "") [untyped] "Man" [untyped]);
    first [ right; reflexivity | vm_compute; reflexivity ].
Defined.

(** [resolver_failure_ends_tool] at work: the [fileId] names no file, and
    the drive holds a file for the name [undefined] that the absent
    [filename] stands for. *)
Lemma resolver_failure_ends_tool_witness :
  let bag : gmap string string := {[ "fileId" := "nope" ]} in
  let failed : Run drive ToolResult :=
    {| outcome := inl (NotFound "nope"); after := ([stray] : world drive);
       calls := [files_list (Some "name = 'nope'") 5 "files(id, name)" None] |} in
  callTool platform drive "update_file_content" (Some bag) [stray] = failed
  /\ callTool platform drive "delete_file" (Some bag) [stray] = failed.
Proof.
  intros bag failed.
  exact (proj1 (resolver_failure_ends_tool platform drive bag
                  ([stray] : world drive))
               (NotFound "nope") eq_refl).
Defined.

(** [delete_file_by_id] at work: an id nobody has is sent all the same. *)
Lemma delete_file_by_id_witness :
  let bag : gmap string string := {[ "fileId" := "no-such-file-0123456789" ]} in
  let t := callTool platform drive "delete_file" (Some bag) [notes] in
  calls t = [files_delete "no-such-file-0123456789"]
  /\ outcome t = inl (RemoteFailure "File not found") /\ after t = [notes].
Proof.
  intros bag t.
  apply (delete_file_by_id platform drive bag ([notes] : world drive)
           "no-such-file-0123456789"); vm_compute; reflexivity.
Defined.

(** [update_without_newContent] at work. *)
Lemma update_without_newContent_witness :
  let bag : gmap string string := {[ "fileId" := "notes.txt" ]} in
  callTool platform drive "update_file_content" (Some bag) [notes]
  = {| outcome := inl TypeError; after := ([notes] : world drive);
       calls := [files_list (Some "name = 'notes.txt'") 5 "files(id, name)" None] |}.
Proof.
  intros bag.
  apply (update_without_newContent platform drive bag ([notes] : world drive)
           (s_id notes)); vm_compute; reflexivity.
Defined.

(** [delete_nothing_rewrites] at work: no target, a text with [undefined]. *)
Lemma delete_nothing_rewrites_witness :
  let bag : gmap string string := {[ "filename" := "formula.txt" ]} in
  calls (callTool platform drive "delete_from_file_content" (Some bag) [formula])
  = [files_list (Some "name = 'formula.txt'") 5 "files(id, name)" None;
     files_get_arraybuffer (s_id formula) (Some "media");
     files_update (s_id formula) "text/plain" "f(x) is undefined"].
Proof.
  intros bag.
  apply (delete_nothing_rewrites platform drive bag ([formula] : world drive)
           (s_id formula) "f(x) is undefined" [formula]); vm_compute; reflexivity.
Defined.

(** [delete_pattern_text] at work: an open parenthesis does not compile. *)
Lemma delete_pattern_text_witness :
  let bag : gmap string string :=
    {[ "filename" := "formula.txt"; "targetText" := "(" ]} in
  callTool platform drive "delete_from_file_content" (Some bag) [formula]
  = {| outcome := inl SyntaxError; after := ([formula] : world drive);
       calls := [files_list (Some "name = 'formula.txt'") 5 "files(id, name)" None;
                 files_get_arraybuffer (s_id formula) (Some "media")] |}.
Proof.
  intros bag.
  apply (delete_pattern_text platform drive bag ([formula] : world drive)
           (s_id formula) "f(x) is undefined" "(" [formula]);
    vm_compute; reflexivity.
Defined.

(** [upload_creates_once] at work: a second [notes.txt] is created. *)
Lemma upload_creates_once_witness :
  let bag : gmap string string := {[ "name" := "notes.txt"; "content" := "new" ]} in
  calls (callTool platform drive "upload_file_with_content" (Some bag) [notes])
  = [files_create (Some "notes.txt") "application/octet-stream"
                  "application/octet-stream" "new"]
  /\ "application/octet-stream" <> ""
  /\ (mime_lookup platform (Some "notes.txt") = None ->
      "application/octet-stream" = "application/octet-stream").
Proof.
  intros bag.
  apply (upload_creates_once platform drive bag ([notes] : world drive) "new").
  vm_compute. reflexivity.
Defined.

(** [absent_id_is_looked_up] at work: a bag with a [filename] but no
    [fileId], and one with a [fileId] but no [filename]. *)
Lemma absent_id_is_looked_up_witness :
  let byId : gmap string string := {[ "filename" := "notes.txt" ]} in
  let byName : gmap string string := {[ "fileId" := "notes.txt" ]} in
  let lookup := files_list (Some "name = 'undefined'") 5 "files(id, name)" None in
  let start name bag :=
    exists rest,
      calls (callTool platform drive name (Some bag) ([stray] : world drive))
      = lookup :: rest in
  start "update_file_content" byId /\ start "delete_file" byId
  /\ start "read_file_content" byName /\ start "append_file_content" byName
  /\ start "delete_from_file_content" byName.
Proof.
  intros byId byName lookup start.
  apply (absent_id_is_looked_up platform drive byId byName ([stray] : world drive));
    reflexivity.
Defined.

(** [connects_only_with_credentials] at work: the file is there. *)
Lemma connects_only_with_credentials_witness :
  let disk : gmap string string :=
    {[ "/home/ann/.gmail-mcp/credentials.json" := "token" ]} in
  ["node"; "index.js"] !! 2 <> Some "auth"
  /\ exists text creds,
       fs_existsSync SampleHost.host
         (credentialsPath SampleHost.host SampleHost.env) disk = true
       /\ fs_readFileSync SampleHost.host
            (credentialsPath SampleHost.host SampleHost.env) disk = Some text
       /\ JSON_parse SampleHost.host text = Some creds
       /\ main SampleHost.host ["node"; "index.js"] SampleHost.env disk
          = ([google_options creds; connected], disk).
Proof.
  intros disk.
  apply (connects_only_with_credentials SampleHost.host ["node"; "index.js"]
           SampleHost.env disk).
  vm_compute. tauto.
Defined.

(** [auth_then_serve] at work: authorize on an empty disk, then serve. *)
Lemma auth_then_serve_witness :
  let disk' :=
    snd (main SampleHost.host ["node"; "index.js"; "auth"] SampleHost.env ∅) in
  main SampleHost.host ["node"; "index.js"] SampleHost.env disk'
  = ([@google_options SampleHost.host
        "token for /home/ann/.gmail-mcp/gcp-oauth.keys.json";
      connected], disk').
Proof.
  apply (auth_then_serve SampleHost.host ["node"; "index.js"; "auth"]
           ["node"; "index.js"] SampleHost.env (∅ : gmap string string)
           "token for /home/ann/.gmail-mcp/gcp-oauth.keys.json").
  - reflexivity.
  - discriminate.
  - reflexivity.
  - eexists. reflexivity.
  - intros path content d d' [= <-]. cbn.
    rewrite lookup_insert_eq. split; [|reflexivity].
    apply bool_decide_eq_true. eauto.
  - reflexivity.
  - reflexivity.
Defined.

End FurtherSamples.
